(** * Funny-Calculator: the expression evaluator and the reveal sequencers

    A shallow embedding of [calculator.py]:

    - [safe_eval] and [evaluate_expression], the restricted arithmetic
      evaluator, over a model of the Python objects it handles (the [ast]
      nodes produced by [ast.parse], the numbers, the exceptions);
    - the two timer-driven "thinking" sequences, [run_gui.start_sequence]
      and [run_keypad_gui.run_sequence_then_eval], as state machines
      driven by the toolkit's [after] callbacks.
    - [main], the command line, and the rest of the keypad window: its
      keys, its memory and its keyboard handler ([Cli] and [Window]).

    Python objects are modelled as follows.  [int] is [Z]; [float] is an
    IEEE-754 binary64 number ([spec_float] at precision 53); [bool] is a
    separate constructor because the source distinguishes it only through
    [isinstance]; exceptions are values of an error monad.  The semantics is
    that of CPython 3.8 to 3.13, where [ast.parse] produces [ast.Constant]
    nodes and [ast.Num] is the deprecated alias whose instance check accepts
    a [Constant] holding an [int], [float] or [complex] that is not a
    [bool].  Resource limits of the interpreter (recursion depth, memory,
    the optional bound on int-to-str conversion) are not modelled. *)

From Stdlib Require Import ZArith List String Ascii Bool Lia.
From Stdlib Require Import Floats.SpecFloat.
Import ListNotations.

Set Warnings "-register-all".
Local Open Scope string_scope.

(* ================================================================== *)
(** * Python numbers *)

(** IEEE-754 binary64, the format of Python's [float]. *)
Module Float.
Definition prec : Z := 53.
Definition emax : Z := 1024.

Definition add : spec_float -> spec_float -> spec_float := SFadd prec emax.
Definition sub : spec_float -> spec_float -> spec_float := SFsub prec emax.
Definition mul : spec_float -> spec_float -> spec_float := SFmul prec emax.
Definition div : spec_float -> spec_float -> spec_float := SFdiv prec emax.
Definition opp : spec_float -> spec_float := SFopp.
Definition eqb : spec_float -> spec_float -> bool := SFeqb.

(** [x == 0.0]: true of both zeros, false of NaN. *)
Definition is_zero (x : spec_float) : bool :=
  match x with S754_zero _ => true | _ => false end.

Definition is_infinite (x : spec_float) : bool :=
  match x with S754_infinity _ => true | _ => false end.

(** The integer [z] as an unrounded mantissa with exponent 0.  It is a
    valid binary64 number only for small [z]; it is used as an operand
    of [div], which rounds the exact quotient once. *)
Definition exact (z : Z) : spec_float :=
  match z with
  | Z0 => S754_zero false
  | Zpos p => S754_finite false p 0
  | Zneg p => S754_finite true p 0
  end.

(** The float nearest to [z] (ties to even); infinite when [z] is out
    of range. *)
Definition of_Z (z : Z) : spec_float := binary_normalize prec emax z 0 false.

(** The float nearest to [m * 10^e]: the value of a decimal literal. *)
Definition of_decimal (m e : Z) : spec_float :=
  if (0 <=? e)%Z then of_Z (m * 10 ^ e)
  else div (exact m) (exact (10 ^ (- e))).
End Float.

(** The numbers [safe_eval] can return. *)
Inductive value : Type :=
| VInt (n : Z)
| VBool (b : bool)
| VFloat (x : spec_float)
| VComplex (re im : spec_float).

(** [int] and its subclass [bool] as mathematical integers. *)
Definition int_of (v : value) : option Z :=
  match v with
  | VInt n => Some n
  | VBool b => Some (Z.b2z b)
  | _ => None
  end.

(* ================================================================== *)
(** * The syntax trees of Python's [ast] module *)

Module ast.

(** The operator classes: [ast.operator] ([Add] to [FloorDiv]) and
    [ast.unaryop] ([Invert] to [USub]).  They form one type because
    [ALLOWED_OPERATORS] is one dictionary keyed by classes of both. *)
Inductive operator : Type :=
| Add | Sub | Mult | MatMult | Div | Mod | Pow
| LShift | RShift | BitOr | BitXor | BitAnd | FloorDiv
| Invert | Not | UAdd | USub.

Inductive cmpop : Type :=
| Eq | NotEq | Lt | LtE | Gt | GtE | Is | IsNot | In | NotIn.

Inductive boolop : Type := And | Or.

(** The Python object held by a [Constant] node. *)
Inductive constant : Type :=
| Int (n : Z)
| Float (x : spec_float)
| Imag (im : spec_float)          (* an imaginary literal, [complex(0, im)] *)
| Bool (b : bool)
| Str (s : string)
| NoneValue
| EllipsisValue.

Inductive node : Type :=
| Expression (body : node)
| BinOp (left : node) (op : operator) (right : node)
| UnaryOp (op : operator) (operand : node)
| Constant (value : constant)
| Name (id : string)
| Call (func : node) (args : list node)
| Attribute (value : node) (attr : string)
| Subscript (value : node) (slice : node)
| Compare (left : node) (ops : list cmpop) (comparators : list node)
| BoolOp (op : boolop) (values : list node)
| List (elts : list node)
| Tuple (elts : list node).

Definition operator_eqb (a b : operator) : bool :=
  match a, b with
  | Add, Add | Sub, Sub | Mult, Mult | MatMult, MatMult | Div, Div
  | Mod, Mod | Pow, Pow | LShift, LShift | RShift, RShift
  | BitOr, BitOr | BitXor, BitXor | BitAnd, BitAnd | FloorDiv, FloorDiv
  | Invert, Invert | Not, Not | UAdd, UAdd | USub, USub => true
  | _, _ => false
  end.

End ast.

(* ================================================================== *)
(** * Exceptions *)

(** The exceptions that can arise under [evaluate_expression].  A
    [ValueError] carries the message the source builds for it; the
    formatting functions inside the f-strings ([str] of an exception or of
    a class, [ast.dump]) are left uninterpreted, so a message is kept as
    the data it is formatted from. *)
Inductive exn : Type :=
| SyntaxError          (* raised by [ast.parse]; also its subclass
                          [IndentationError] *)
| RecursionError       (* raised by [ast.parse] *)
| ZeroDivisionError
| OverflowError
| TypeError
| ValueError (msg : message)
with message : Type :=
| Operator_not_allowed (op_type : ast.operator)
    (* f"Operator {op_type} not allowed" *)
| Unary_operator_not_allowed (op_type : ast.operator)
    (* f"Unary operator {op_type} not allowed" *)
| Only_int_float_constants
    (* "Only int/float constants are allowed" *)
| Unsupported_expression (n : ast.node)
    (* f"Unsupported expression: {ast.dump(node)}" *)
| Invalid_expression (e : exn).
    (* f"Invalid expression: {e}" *)

(** The error monad: a Python call returns or raises. *)
Inductive result (A : Type) : Type :=
| Ok (a : A)
| Raise (e : exn).
Arguments Ok {A} a.
Arguments Raise {A} e.

Definition bind {A B : Type} (r : result A) (k : A -> result B) : result B :=
  match r with
  | Ok a => k a
  | Raise e => Raise e
  end.

Declare Scope py_scope.
Delimit Scope py_scope with py.
Notation "x <- r ;; k" := (bind r (fun x => k))
  (at level 61, r at next level, right associativity) : py_scope.
Notation "' p <- r ;; k" := (bind r (fun x => let p := x in k))
  (at level 61, p pattern, r at next level, right associativity) : py_scope.
Local Open Scope py_scope.

(* ================================================================== *)
(** * The functions of Python's [operator] module *)

(** The callables stored in [ALLOWED_OPERATORS]. *)
Inductive pyfun : Type :=
| operator_add | operator_sub | operator_mul | operator_truediv
| operator_floordiv | operator_mod | operator_pow
| operator_neg | operator_pos.

(** What CPython delegates to the C library: [//], [%] and [**] on floats
    ([fmod], [floor], [pow]), and arithmetic with a [complex] operand.
    These are parameters of the development; every statement below holds
    whatever they compute. *)
Class CRuntime : Type := {
  float_floordiv : spec_float -> spec_float -> spec_float;
  float_mod : spec_float -> spec_float -> spec_float;
  float_pow : spec_float -> spec_float -> result value;
  complex_arith : pyfun -> value -> value -> result value
}.

Section Operators.
Context {rt : CRuntime}.

(** [PyLong_AsDouble]: an [int] operand meeting a [float]. *)
Definition int_to_float (n : Z) : result spec_float :=
  let x := Float.of_Z n in
  if Float.is_infinite x then Raise OverflowError else Ok x.

(** Arithmetic on two [int]s. *)
Definition int_arith (f : pyfun) (a b : Z) : result value :=
  match f with
  | operator_add => Ok (VInt (a + b))
  | operator_sub => Ok (VInt (a - b))
  | operator_mul => Ok (VInt (a * b))
  | operator_truediv =>
      if (b =? 0)%Z then Raise ZeroDivisionError
      else
        let q := Float.div (Float.exact a) (Float.exact b) in
        if Float.is_infinite q then Raise OverflowError else Ok (VFloat q)
  | operator_floordiv =>
      if (b =? 0)%Z then Raise ZeroDivisionError else Ok (VInt (a / b))
  | operator_mod =>
      if (b =? 0)%Z then Raise ZeroDivisionError else Ok (VInt (a mod b))
  | operator_pow =>
      if (b <? 0)%Z then
        x <- int_to_float a ;; y <- int_to_float b ;; float_pow x y
      else Ok (VInt (a ^ b))
  | operator_neg | operator_pos => Raise TypeError
  end.

(** Arithmetic on two [float]s. *)
Definition float_arith (f : pyfun) (x y : spec_float) : result value :=
  match f with
  | operator_add => Ok (VFloat (Float.add x y))
  | operator_sub => Ok (VFloat (Float.sub x y))
  | operator_mul => Ok (VFloat (Float.mul x y))
  | operator_truediv =>
      if Float.is_zero y then Raise ZeroDivisionError
      else Ok (VFloat (Float.div x y))
  | operator_floordiv =>
      if Float.is_zero y then Raise ZeroDivisionError
      else Ok (VFloat (float_floordiv x y))
  | operator_mod =>
      if Float.is_zero y then Raise ZeroDivisionError
      else Ok (VFloat (float_mod x y))
  | operator_pow => float_pow x y
  | operator_neg | operator_pos => Raise TypeError
  end.

(** [f(left, right)] for a callable of [ALLOWED_OPERATORS]: the numeric
    tower coerces [bool] and [int] to [float], and anything to [complex].
    [operator.neg] and [operator.pos] take one argument. *)
Definition call2 (f : pyfun) (left right : value) : result value :=
  match f with
  | operator_neg | operator_pos => Raise TypeError
  | _ =>
      match left, right with
      | VComplex _ _, _ | _, VComplex _ _ => complex_arith f left right
      | VFloat x, VFloat y => float_arith f x y
      | VFloat x, VInt b => y <- int_to_float b ;; float_arith f x y
      | VFloat x, VBool b => y <- int_to_float (Z.b2z b) ;; float_arith f x y
      | VInt a, VFloat y => x <- int_to_float a ;; float_arith f x y
      | VBool a, VFloat y => x <- int_to_float (Z.b2z a) ;; float_arith f x y
      | VInt a, VInt b => int_arith f a b
      | VInt a, VBool b => int_arith f a (Z.b2z b)
      | VBool a, VInt b => int_arith f (Z.b2z a) b
      | VBool a, VBool b => int_arith f (Z.b2z a) (Z.b2z b)
      end
  end.

(** [f(operand)]: the binary functions take two arguments. *)
Definition call1 (f : pyfun) (operand : value) : result value :=
  match f with
  | operator_neg =>
      match operand with
      | VInt n => Ok (VInt (- n))
      | VBool b => Ok (VInt (- Z.b2z b))
      | VFloat x => Ok (VFloat (Float.opp x))
      | VComplex re im => Ok (VComplex (Float.opp re) (Float.opp im))
      end
  | operator_pos =>
      match operand with
      | VBool b => Ok (VInt (Z.b2z b))
      | v => Ok v
      end
  | _ => Raise TypeError
  end.

End Operators.

(** [res == 5]: Python compares numbers by value across the tower. *)
Definition equals_five (res : value) : bool :=
  match res with
  | VInt n => (n =? 5)%Z
  | VBool b => (Z.b2z b =? 5)%Z
  | VFloat x => Float.eqb x (Float.of_Z 5)
  | VComplex re im => Float.eqb re (Float.of_Z 5) && Float.is_zero im
  end.

(* ================================================================== *)
(** * [ALLOWED_OPERATORS] and [safe_eval] *)

(** The module-level dictionary, in the order it is written. *)
Definition ALLOWED_OPERATORS : list (ast.operator * pyfun) :=
  [ (ast.Add, operator_add);
    (ast.Sub, operator_sub);
    (ast.Mult, operator_mul);
    (ast.Div, operator_truediv);
    (ast.FloorDiv, operator_floordiv);
    (ast.Mod, operator_mod);
    (ast.Pow, operator_pow);
    (ast.USub, operator_neg);
    (ast.UAdd, operator_pos) ].

(** [d[k]] when [k in d]. *)
Fixpoint dict_get {V : Type} (d : list (ast.operator * V)) (k : ast.operator)
  : option V :=
  match d with
  | [] => None
  | (k', v) :: d' => if ast.operator_eqb k k' then Some v else dict_get d' k
  end.

(** [node.n] when [isinstance(node, ast.Num)]: the constant is an [int],
    a [float] or a [complex], and not a [bool]. *)
Definition Num_n (c : ast.constant) : option value :=
  match c with
  | ast.Int n => Some (VInt n)
  | ast.Float x => Some (VFloat x)
  | ast.Imag im => Some (VComplex (S754_zero false) im)
  | _ => None
  end.

(** [node.value] when [isinstance(node.value, (int, float))]; [bool] is a
    subclass of [int]. *)
Definition int_float_value (c : ast.constant) : option value :=
  match c with
  | ast.Int n => Some (VInt n)
  | ast.Bool b => Some (VBool b)
  | ast.Float x => Some (VFloat x)
  | _ => None
  end.

Section Evaluator.
Context {rt : CRuntime}.

Fixpoint safe_eval (node : ast.node) : result value :=
  match node with
  | ast.Expression body => safe_eval body
  | ast.BinOp node_left op node_right =>
      left <- safe_eval node_left ;;
      right <- safe_eval node_right ;;
      match dict_get ALLOWED_OPERATORS op with
      | Some f => call2 f left right
      | None => Raise (ValueError (Operator_not_allowed op))
      end
  | ast.UnaryOp op node_operand =>
      operand <- safe_eval node_operand ;;
      match dict_get ALLOWED_OPERATORS op with
      | Some f => call1 f operand
      | None => Raise (ValueError (Unary_operator_not_allowed op))
      end
  | ast.Constant c =>
      match Num_n c with
      | Some n => Ok n
      | None =>
          match int_float_value c with
          | Some v => Ok v
          | None => Raise (ValueError Only_int_float_constants)
          end
      end
  | _ => Raise (ValueError (Unsupported_expression node))
  end.

End Evaluator.

(** The grammar of the specification:
    [Expr := Number | Expr op Expr | ('+'|'-') Expr | '(' Expr ')']
    with [op] one of [+ - * / // % **] and [Number] an integer or
    floating-point literal.  Parentheses leave no node. *)
Definition binary_allowed (op : ast.operator) : bool :=
  match op with
  | ast.Add | ast.Sub | ast.Mult | ast.Div | ast.FloorDiv | ast.Mod
  | ast.Pow => true
  | _ => false
  end.

Definition unary_allowed (op : ast.operator) : bool :=
  match op with
  | ast.UAdd | ast.USub => true
  | _ => false
  end.

Fixpoint in_grammar (node : ast.node) : bool :=
  match node with
  | ast.Expression body => in_grammar body
  | ast.BinOp l op r => in_grammar l && binary_allowed op && in_grammar r
  | ast.UnaryOp op operand => unary_allowed op && in_grammar operand
  | ast.Constant (ast.Int _) | ast.Constant (ast.Float _) => true
  | _ => false
  end.

(** The trees [safe_eval] can evaluate: made of [Expression], of [BinOp]
    and [UnaryOp] with an operator of the table in its place, and of
    constants that pass one of the two instance checks. *)
Fixpoint evaluable (node : ast.node) : bool :=
  match node with
  | ast.Expression body => evaluable body
  | ast.BinOp l op r => evaluable l && binary_allowed op && evaluable r
  | ast.UnaryOp op x => unary_allowed op && evaluable x
  | ast.Constant (ast.Int _) | ast.Constant (ast.Float _)
  | ast.Constant (ast.Imag _) | ast.Constant (ast.Bool _) => true
  | _ => false
  end.

(* ================================================================== *)
(** * [ast.parse(expr, mode='eval')]: the tokenizer

    [ast.parse] belongs to the interpreter, not to the repository.  It is
    modelled here for source text in the Latin-1 range and for the part of
    Python's expression syntax listed below; a Rocq [string] is read as
    the sequence of its characters.

    Covered: numeric literals in every form (decimal, [0x], [0o], [0b],
    floats, imaginary, underscores), names and the keywords [True],
    [False], [None], [and], [or], [not], [in], [is], one-line string
    literals in single or double quotes without backslash or prefix,
    [...], all binary and unary operators, comparisons, parentheses,
    tuples, lists, calls with positional arguments, attributes,
    subscripts, comments, blank lines, line joining inside brackets and
    after a backslash, and the indentation check on the first line.

    Everything else is reported as a syntax error.  CPython accepts some
    of it (lambda, conditional expressions, comprehensions, dict and set
    displays, keyword arguments, slices, f-strings, non-ASCII names), each
    as a node class that [safe_eval] refuses, so [evaluate_expression]
    raises for those inputs in both; only the diagnostic differs. *)

Definition is_digit (c : ascii) : bool :=
  (("0" <=? c) && (c <=? "9"))%char.

Definition is_name_start (c : ascii) : bool :=
  ((("a" <=? c) && (c <=? "z")) || (("A" <=? c) && (c <=? "Z"))
   || (c =? "_"))%char.

Definition is_name_char (c : ascii) : bool := is_name_start c || is_digit c.

Definition char_offset (c base : ascii) : Z :=
  Z.of_N (N_of_ascii c) - Z.of_N (N_of_ascii base).

(** The value of [c] as a digit of the given base, if it is one. *)
Definition digit_in (base : Z) (c : ascii) : option Z :=
  let d :=
    if is_digit c then Some (char_offset c "0"%char)
    else if (("a" <=? c) && (c <=? "f"))%char then Some (10 + char_offset c "a"%char)%Z
    else if (("A" <=? c) && (c <=? "F"))%char then Some (10 + char_offset c "A"%char)%Z
    else None in
  match d with
  | Some v => if (v <? base)%Z then Some v else None
  | None => None
  end.

(** [(["_"] digit)*]: the digits read, the characters consumed, and whether
    every underscore was followed by a digit. *)
Fixpoint digits_tail (base : Z) (cs : list ascii) : list Z * nat * bool :=
  match cs with
  | [] => ([], 0, true)
  | c :: cs' =>
      match digit_in base c with
      | Some d =>
          let '(ds, n, ok) := digits_tail base cs' in (d :: ds, S n, ok)
      | None =>
          if (c =? "_")%char then
            match cs' with
            | c2 :: cs'' =>
                match digit_in base c2 with
                | Some d =>
                    let '(ds, n, ok) := digits_tail base cs'' in
                    (d :: ds, S (S n), ok)
                | None => ([], 0, false)
                end
            | [] => ([], 0, false)
            end
          else ([], 0, true)
      end
  end.

(** [digit (["_"] digit)*], possibly empty. *)
Definition digitpart (base : Z) (cs : list ascii) : list Z * nat * bool :=
  match cs with
  | c :: cs' =>
      match digit_in base c with
      | Some d =>
          let '(ds, n, ok) := digits_tail base cs' in (d :: ds, S n, ok)
      | None => ([], 0, true)
      end
  | [] => ([], 0, true)
  end.

Definition number_of_digits (base : Z) (ds : list Z) : Z :=
  fold_left (fun acc d => (acc * base + d)%Z) ds 0%Z.

(** A number must not run into a name character. *)
Definition ends_cleanly (cs : list ascii) : bool :=
  match cs with
  | c :: _ => negb (is_name_char c)
  | [] => true
  end.

(** [0x...], [0o...], [0b...] after the two-character prefix:
    [(["_"] digit)+]. *)
Definition scan_prefixed (base : Z) (cs : list ascii)
  : option (ast.constant * nat) :=
  let '(skipped, body) :=
    match cs with
    | c :: cs' => if (c =? "_")%char then (1, cs') else (0, cs)
    | [] => (0, cs)
    end in
  let '(ds, n, ok) := digitpart base body in
  if ok && negb (n =? 0)%nat && ends_cleanly (skipn n body)
  then Some (ast.Int (number_of_digits base ds), 2 + skipped + n)
  else None.

(** The exponent of a float: [("e"|"E") ["+"|"-"] digitpart], absent when
    no [e] follows.  [None] is a malformed exponent. *)
Definition scan_exponent (cs : list ascii) : option (option Z * nat) :=
  match cs with
  | c :: cs' =>
      if ((c =? "e") || (c =? "E"))%char then
        let '(negative, signed, body) :=
          match cs' with
          | s :: cs'' =>
              if (s =? "-")%char then (true, 1, cs'')
              else if (s =? "+")%char then (false, 1, cs'')
              else (false, 0, cs')
          | [] => (false, 0, cs')
          end in
        let '(ds, n, ok) := digitpart 10 body in
        if ok && negb (n =? 0)%nat then
          let e := number_of_digits 10 ds in
          Some (Some (if negative then (- e)%Z else e), 1 + signed + n)
        else None
      else Some (None, 0)
  | [] => Some (None, 0)
  end.

(** A decimal integer, float or imaginary literal. *)
Definition scan_decimal (cs : list ascii) : option (ast.constant * nat) :=
  let '(ip, n1, ok1) := digitpart 10 cs in
  let rest1 := skipn n1 cs in
  let '(fraction, fp, n2, ok2) :=
    match rest1 with
    | c :: rest =>
        if (c =? ".")%char then
          let '(fp, n, ok) := digitpart 10 rest in (true, fp, S n, ok)
        else (false, [], 0, true)
    | [] => (false, [], 0, true)
    end in
  let rest2 := skipn n2 rest1 in
  match scan_exponent rest2 with
  | None => None
  | Some (exponent, n3) =>
      let rest3 := skipn n3 rest2 in
      let '(imaginary, n4) :=
        match rest3 with
        | c :: _ => if ((c =? "j") || (c =? "J"))%char then (true, 1) else (false, 0)
        | [] => (false, 0)
        end in
      let len := n1 + n2 + n3 + n4 in
      let floating :=
        match exponent with Some _ => true | None => fraction end in
      let mantissa := number_of_digits 10 (ip ++ fp) in
      let e10 :=
        (match exponent with Some e => e | None => 0 end
         - Z.of_nat (List.length fp))%Z in
      let leading_zero :=
        match ip with
        | d :: _ => (d =? 0)%Z && negb (mantissa =? 0)%Z
        | [] => false
        end in
      if negb (ok1 && ok2 && ends_cleanly (skipn n4 rest3)) then None
      else if (List.length ip + List.length fp =? 0)%nat then None
      else if imaginary then
        Some (ast.Imag (Float.of_decimal mantissa e10), len)
      else if floating then
        Some (ast.Float (Float.of_decimal mantissa e10), len)
      else if leading_zero then None
      else Some (ast.Int mantissa, len)
  end.

Definition scan_number (cs : list ascii) : option (ast.constant * nat) :=
  match cs with
  | z :: x :: rest =>
      if (z =? "0")%char then
        if ((x =? "x") || (x =? "X"))%char then scan_prefixed 16 rest
        else if ((x =? "o") || (x =? "O"))%char then scan_prefixed 8 rest
        else if ((x =? "b") || (x =? "B"))%char then scan_prefixed 2 rest
        else scan_decimal cs
      else scan_decimal cs
  | _ => scan_decimal cs
  end.

(** Operators and delimiters, under the names of CPython's [token] module. *)
Inductive punct : Type :=
| LPAR | RPAR | LSQB | RSQB | COMMA | DOT | ELLIPSIS
| PLUS | MINUS | STAR | DOUBLESTAR | SLASH | DOUBLESLASH | PERCENT | AT
| LEFTSHIFT | RIGHTSHIFT | AMPER | VBAR | CIRCUMFLEX | TILDE
| LESS | GREATER | EQEQUAL | NOTEQUAL | LESSEQUAL | GREATEREQUAL.

Inductive token : Type :=
| NUMBER (c : ast.constant)
| NAME (s : string)
| STRING (s : string)
| OP (p : punct)
| NEWLINE
| ENDMARKER.

Definition newline : ascii := ascii_of_nat 10.
Definition carriage_return : ascii := ascii_of_nat 13.
Definition tab : ascii := ascii_of_nat 9.
Definition formfeed : ascii := ascii_of_nat 12.
Definition backslash : ascii := ascii_of_nat 92.
Definition double_quote : ascii := ascii_of_nat 34.
Definition single_quote : ascii := ascii_of_nat 39.

(** Universal newlines: [\r\n] and [\r] are read as [\n]. *)
Fixpoint translate_newlines (cs : list ascii) : list ascii :=
  match cs with
  | [] => []
  | c :: cs' =>
      if (c =? carriage_return)%char then
        match cs' with
        | c2 :: cs'' =>
            if (c2 =? newline)%char then newline :: translate_newlines cs''
            else newline :: translate_newlines cs'
        | [] => [newline]
        end
      else c :: translate_newlines cs'
  end.

(** The column reached after the blanks that start a line, and how many
    blanks there are: a tab moves to the next multiple of 8, a form feed
    resets the column. *)
Fixpoint indentation (col k : nat) (cs : list ascii) : nat * nat :=
  match cs with
  | c :: cs' =>
      if (c =? " ")%char then indentation (S col) (S k) cs'
      else if (c =? tab)%char then indentation ((col / 8 + 1) * 8) (S k) cs'
      else if (c =? formfeed)%char then indentation 0 (S k) cs'
      else (col, k)
  | [] => (col, k)
  end.

(** The number of characters before the next newline. *)
Fixpoint line_rest (cs : list ascii) : nat :=
  match cs with
  | c :: cs' => if (c =? newline)%char then 0 else S (line_rest cs')
  | [] => 0
  end.

Fixpoint name_length (cs : list ascii) : nat :=
  match cs with
  | c :: cs' => if is_name_char c then S (name_length cs') else 0
  | [] => 0
  end.

(** The body of a string literal opened by [quote]: its length, when it is
    closed on the same line and holds no backslash. *)
Fixpoint string_body (quote : ascii) (cs : list ascii) : option nat :=
  match cs with
  | [] => None
  | c :: cs' =>
      if (c =? quote)%char then Some 0
      else if ((c =? newline) || (c =? backslash))%char then None
      else option_map S (string_body quote cs')
  end.

(** The operator or delimiter that starts [c :: cs], longest first. *)
Definition scan_op (c : ascii) (cs : list ascii) : option (punct * nat) :=
  let next_is (d : ascii) :=
    match cs with c2 :: _ => (c2 =? d)%char | [] => false end in
  let then_is (d : ascii) :=
    match cs with _ :: c3 :: _ => (c3 =? d)%char | _ => false end in
  if (c =? "(")%char then Some (LPAR, 1)
  else if (c =? ")")%char then Some (RPAR, 1)
  else if (c =? "[")%char then Some (LSQB, 1)
  else if (c =? "]")%char then Some (RSQB, 1)
  else if (c =? ",")%char then Some (COMMA, 1)
  else if (c =? ".")%char then
    if next_is "."%char && then_is "."%char then Some (ELLIPSIS, 3)
    else Some (DOT, 1)
  else if (c =? "+")%char then Some (PLUS, 1)
  else if (c =? "-")%char then Some (MINUS, 1)
  else if (c =? "*")%char then
    if next_is "*"%char then Some (DOUBLESTAR, 2) else Some (STAR, 1)
  else if (c =? "/")%char then
    if next_is "/"%char then Some (DOUBLESLASH, 2) else Some (SLASH, 1)
  else if (c =? "%")%char then Some (PERCENT, 1)
  else if (c =? "@")%char then Some (AT, 1)
  else if (c =? "&")%char then Some (AMPER, 1)
  else if (c =? "|")%char then Some (VBAR, 1)
  else if (c =? "^")%char then Some (CIRCUMFLEX, 1)
  else if (c =? "~")%char then Some (TILDE, 1)
  else if (c =? "<")%char then
    if next_is "<"%char then Some (LEFTSHIFT, 2)
    else if next_is "="%char then Some (LESSEQUAL, 2)
    else Some (LESS, 1)
  else if (c =? ">")%char then
    if next_is ">"%char then Some (RIGHTSHIFT, 2)
    else if next_is "="%char then Some (GREATEREQUAL, 2)
    else Some (GREATER, 1)
  else if (c =? "=")%char then
    if next_is "="%char then Some (EQEQUAL, 2) else None
  else if (c =? "!")%char then
    if next_is "="%char then Some (NOTEQUAL, 2) else None
  else None.

(** The token that starts [c :: cs] and its length. *)
Definition scan_token (c : ascii) (cs : list ascii) : option (token * nat) :=
  let starts_number :=
    is_digit c
    || ((c =? ".")%char && match cs with d :: _ => is_digit d | [] => false end) in
  if starts_number then
    match scan_number (c :: cs) with
    | Some (k, n) => Some (NUMBER k, n)
    | None => None
    end
  else if is_name_start c then
    let n := S (name_length cs) in
    Some (NAME (string_of_list_ascii (firstn n (c :: cs))), n)
  else if ((c =? double_quote) || (c =? single_quote))%char then
    match string_body c cs with
    | Some n => Some (STRING (string_of_list_ascii (firstn n cs)), n + 2)
    | None => None
    end
  else
    match scan_op c cs with
    | Some (p, n) => Some (OP p, n)
    | None => None
    end.

Definition depth_after (p : punct) (depth : nat) : nat :=
  match p with
  | LPAR | LSQB => S depth
  | RPAR | RSQB => Nat.pred depth
  | _ => depth
  end.

(** The tokenizer.  [skip] counts the characters of the current token
    still to pass, [depth] the open brackets, [bol] tells whether a line
    starts here. *)
Fixpoint tokens_from (skip depth : nat) (bol : bool) (cs : list ascii)
  {struct cs} : result (list token) :=
  match cs with
  | [] => Ok [ENDMARKER]
  | c :: cs' =>
      match skip with
      | S k => tokens_from k depth bol cs'
      | O =>
          let '(col, blanks) := indentation 0 0 cs in
          let first := nth_error cs blanks in
          let blank_line :=
            match first with
            | None => true
            | Some d => ((d =? newline) || (d =? "#"))%char
            end in
          if bol && blank_line then
            (* a blank or comment-only line yields no token *)
            tokens_from (line_rest cs) depth true cs'
          else if bol && negb (col =? 0)%nat then Raise SyntaxError
          else if ((c =? " ") || (c =? tab) || (c =? formfeed))%char then
            tokens_from 0 depth false cs'
          else if (c =? "#")%char then
            tokens_from (Nat.pred (line_rest cs)) depth false cs'
          else if (c =? newline)%char then
            if (depth =? 0)%nat then
              ts <- tokens_from 0 0 true cs' ;; Ok (NEWLINE :: ts)
            else tokens_from 0 depth false cs'
          else if (c =? backslash)%char then
            match cs' with
            | d :: _ :: _ =>
                if (d =? newline)%char then tokens_from 1 depth false cs'
                else Raise SyntaxError
            | _ => Raise SyntaxError
            end
          else
            match scan_token c cs' with
            | Some (OP p, n) =>
                ts <- tokens_from (Nat.pred n) (depth_after p depth) false cs' ;;
                Ok (OP p :: ts)
            | Some (t, n) =>
                ts <- tokens_from (Nat.pred n) depth false cs' ;;
                Ok (t :: ts)
            | None => Raise SyntaxError
            end
      end
  end.

Definition tokenize (source : string) : result (list token) :=
  tokens_from 0 0 true (translate_newlines (list_ascii_of_string source)).

(* ================================================================== *)
(** * [ast.parse(expr, mode='eval')]: the parser

    Precedence climbing over the levels of Python's grammar:
    1 [or], 2 [and], 3 [not], 4 comparisons, 5 [|], 6 [^], 7 [&],
    8 shifts, 9 sums, 10 terms, 11 unary [+ - ~], 12 [**].
    [fuel] bounds the nesting of calls; running out of it is reported
    as [RecursionError]. *)

Definition is_keyword (s : string) : bool :=
  existsb (String.eqb s)
    [ "False"; "None"; "True"; "and"; "as"; "assert"; "async"; "await";
      "break"; "class"; "continue"; "def"; "del"; "elif"; "else"; "except";
      "finally"; "for"; "from"; "global"; "if"; "import"; "in"; "is";
      "lambda"; "nonlocal"; "not"; "or"; "pass"; "raise"; "return"; "try";
      "while"; "with"; "yield" ].

Definition binop_of (t : token) : option (nat * ast.operator) :=
  match t with
  | OP VBAR => Some (5, ast.BitOr)
  | OP CIRCUMFLEX => Some (6, ast.BitXor)
  | OP AMPER => Some (7, ast.BitAnd)
  | OP LEFTSHIFT => Some (8, ast.LShift)
  | OP RIGHTSHIFT => Some (8, ast.RShift)
  | OP PLUS => Some (9, ast.Add)
  | OP MINUS => Some (9, ast.Sub)
  | OP STAR => Some (10, ast.Mult)
  | OP AT => Some (10, ast.MatMult)
  | OP SLASH => Some (10, ast.Div)
  | OP DOUBLESLASH => Some (10, ast.FloorDiv)
  | OP PERCENT => Some (10, ast.Mod)
  | OP DOUBLESTAR => Some (12, ast.Pow)
  | _ => None
  end.

(** The level at which the right operand of a binary operator is read:
    the next tighter one, and a unary expression after [**]. *)
Definition right_level (lvl : nat) : nat :=
  if (lvl =? 12)%nat then 11 else S lvl.

Definition unaryop_of (t : token) : option ast.operator :=
  match t with
  | OP PLUS => Some ast.UAdd
  | OP MINUS => Some ast.USub
  | OP TILDE => Some ast.Invert
  | _ => None
  end.

(** A comparison operator at the head of the tokens, and what follows it. *)
Definition cmpop_of (ts : list token) : option (ast.cmpop * list token) :=
  match ts with
  | OP EQEQUAL :: r => Some (ast.Eq, r)
  | OP NOTEQUAL :: r => Some (ast.NotEq, r)
  | OP LESS :: r => Some (ast.Lt, r)
  | OP LESSEQUAL :: r => Some (ast.LtE, r)
  | OP GREATER :: r => Some (ast.Gt, r)
  | OP GREATEREQUAL :: r => Some (ast.GtE, r)
  | NAME a :: r =>
      if (a =? "in")%string then Some (ast.In, r)
      else if (a =? "is")%string then
        match r with
        | NAME b :: r' =>
            if (b =? "not")%string then Some (ast.IsNot, r')
            else Some (ast.Is, r)
        | _ => Some (ast.Is, r)
        end
      else if (a =? "not")%string then
        match r with
        | NAME b :: r' =>
            if (b =? "in")%string then Some (ast.NotIn, r') else None
        | _ => None
        end
      else None
  | _ => None
  end.

Definition boolop_of (t : token) : option (nat * ast.boolop) :=
  match t with
  | NAME s =>
      if (s =? "or")%string then Some (1, ast.Or)
      else if (s =? "and")%string then Some (2, ast.And)
      else None
  | _ => None
  end.

(** After a comma, these tokens end the list (a trailing comma). *)
Definition closes_list (ts : list token) : bool :=
  match ts with
  | OP RPAR :: _ | OP RSQB :: _ | NEWLINE :: _ | ENDMARKER :: _ | [] => true
  | _ => false
  end.

Definition parsed : Type := result (ast.node * list token).

Fixpoint expr (fuel min : nat) (ts : list token) {struct fuel} : parsed :=
  match fuel with
  | O => Raise RecursionError
  | S fuel =>
      '(lhs, ts1) <- prefix fuel min ts ;;
      tail fuel min lhs ts1
  end

(** A unary operator with its operand, or a primary. *)
with prefix (fuel min : nat) (ts : list token) {struct fuel} : parsed :=
  match fuel with
  | O => Raise RecursionError
  | S fuel =>
      match ts with
      | NAME s :: ts' =>
          if (s =? "not")%string then
            if (min <=? 3)%nat then
              '(x, r) <- expr fuel 3 ts' ;; Ok (ast.UnaryOp ast.Not x, r)
            else Raise SyntaxError
          else '(a, r) <- atom fuel ts ;; trailers fuel a r
      | t :: ts' =>
          match unaryop_of t with
          | Some op =>
              '(x, r) <- expr fuel 11 ts' ;; Ok (ast.UnaryOp op x, r)
          | None => '(a, r) <- atom fuel ts ;; trailers fuel a r
          end
      | [] => Raise SyntaxError
      end
  end

(** The operators that follow a left operand, while they bind at least as
    tightly as [min]. *)
with tail (fuel min : nat) (lhs : ast.node) (ts : list token) {struct fuel}
  : parsed :=
  match fuel with
  | O => Raise RecursionError
  | S fuel =>
      match ts with
      | [] => Ok (lhs, ts)
      | t :: ts' =>
          match binop_of t, cmpop_of ts, boolop_of t with
          | Some (lvl, op), _, _ =>
              if (min <=? lvl)%nat then
                '(rhs, r) <- expr fuel (right_level lvl) ts' ;;
                tail fuel min (ast.BinOp lhs op rhs) r
              else Ok (lhs, ts)
          | None, Some (op, ts''), _ =>
              if (min <=? 4)%nat then
                '(rhs, r) <- expr fuel 5 ts'' ;;
                '(more, r') <- comparisons fuel r ;;
                tail fuel min
                  (ast.Compare lhs (op :: map fst more) (rhs :: map snd more)) r'
              else Ok (lhs, ts)
          | None, None, Some (lvl, op) =>
              if (min <=? lvl)%nat then
                '(rhs, r) <- expr fuel (S lvl) ts' ;;
                '(more, r') <- operands fuel lvl r ;;
                tail fuel min (ast.BoolOp op (lhs :: rhs :: more)) r'
              else Ok (lhs, ts)
          | None, None, None => Ok (lhs, ts)
          end
      end
  end

(** The rest of a comparison chain. *)
with comparisons (fuel : nat) (ts : list token) {struct fuel}
  : result (list (ast.cmpop * ast.node) * list token) :=
  match fuel with
  | O => Raise RecursionError
  | S fuel =>
      match cmpop_of ts with
      | Some (op, ts') =>
          '(rhs, r) <- expr fuel 5 ts' ;;
          '(more, r') <- comparisons fuel r ;;
          Ok ((op, rhs) :: more, r')
      | None => Ok ([], ts)
      end
  end

(** The further operands of one [and] or [or]. *)
with operands (fuel lvl : nat) (ts : list token) {struct fuel}
  : result (list ast.node * list token) :=
  match fuel with
  | O => Raise RecursionError
  | S fuel =>
      match ts with
      | t :: ts' =>
          match boolop_of t with
          | Some (lvl', _) =>
              if (lvl' =? lvl)%nat then
                '(rhs, r) <- expr fuel (S lvl) ts' ;;
                '(more, r') <- operands fuel lvl r ;;
                Ok (rhs :: more, r')
              else Ok ([], ts)
          | None => Ok ([], ts)
          end
      | [] => Ok ([], ts)
      end
  end

with atom (fuel : nat) (ts : list token) {struct fuel} : parsed :=
  match fuel with
  | O => Raise RecursionError
  | S fuel =>
      match ts with
      | NUMBER c :: r => Ok (ast.Constant c, r)
      | STRING s :: r => Ok (ast.Constant (ast.Str s), r)
      | NAME s :: r =>
          if (s =? "True")%string then Ok (ast.Constant (ast.Bool true), r)
          else if (s =? "False")%string then Ok (ast.Constant (ast.Bool false), r)
          else if (s =? "None")%string then Ok (ast.Constant ast.NoneValue, r)
          else if is_keyword s then Raise SyntaxError
          else Ok (ast.Name s, r)
      | OP ELLIPSIS :: r => Ok (ast.Constant ast.EllipsisValue, r)
      | OP LPAR :: OP RPAR :: r => Ok (ast.Tuple [], r)
      | OP LPAR :: r =>
          '(es, comma, r') <- expressions fuel r ;;
          match r' with
          | OP RPAR :: r'' =>
              match es, comma with
              | [e], false => Ok (e, r'')
              | _, _ => Ok (ast.Tuple es, r'')
              end
          | _ => Raise SyntaxError
          end
      | OP LSQB :: OP RSQB :: r => Ok (ast.List [], r)
      | OP LSQB :: r =>
          '(es, _, r') <- expressions fuel r ;;
          match r' with
          | OP RSQB :: r'' => Ok (ast.List es, r'')
          | _ => Raise SyntaxError
          end
      | _ => Raise SyntaxError
      end
  end

(** Calls, subscripts and attributes after a primary. *)
with trailers (fuel : nat) (a : ast.node) (ts : list token) {struct fuel}
  : parsed :=
  match fuel with
  | O => Raise RecursionError
  | S fuel =>
      match ts with
      | OP DOT :: NAME s :: r =>
          if is_keyword s then Raise SyntaxError
          else trailers fuel (ast.Attribute a s) r
      | OP LPAR :: OP RPAR :: r => trailers fuel (ast.Call a []) r
      | OP LPAR :: r =>
          '(es, _, r') <- expressions fuel r ;;
          match r' with
          | OP RPAR :: r'' => trailers fuel (ast.Call a es) r''
          | _ => Raise SyntaxError
          end
      | OP LSQB :: r =>
          '(es, comma, r') <- expressions fuel r ;;
          match r' with
          | OP RSQB :: r'' =>
              match es, comma with
              | [e], false => trailers fuel (ast.Subscript a e) r''
              | _, _ => trailers fuel (ast.Subscript a (ast.Tuple es)) r''
              end
          | _ => Raise SyntaxError
          end
      | _ => Ok (a, ts)
      end
  end

(** Expressions separated by commas; the flag tells whether a comma was
    read. *)
with expressions (fuel : nat) (ts : list token) {struct fuel}
  : result (list ast.node * bool * list token) :=
  match fuel with
  | O => Raise RecursionError
  | S fuel =>
      '(e, r) <- expr fuel 0 ts ;;
      match r with
      | OP COMMA :: r' =>
          if closes_list r' then Ok ([e], true, r')
          else
            '(es, _, r'') <- expressions fuel r' ;;
            Ok (e :: es, true, r'')
      | _ => Ok ([e], false, r)
      end
  end.

(** [eval_input: expressions NEWLINE* ENDMARKER]. *)
Fixpoint at_end (ts : list token) : bool :=
  match ts with
  | NEWLINE :: ts' => at_end ts'
  | [ENDMARKER] => true
  | _ => false
  end.

Definition eval_input (ts : list token) : result ast.node :=
  '(es, comma, r) <- expressions (8 * List.length ts + 8) ts ;;
  if at_end r then
    match es, comma with
    | [e], false => Ok (ast.Expression e)
    | _, _ => Ok (ast.Expression (ast.Tuple es))
    end
  else Raise SyntaxError.

(** [ast.parse(source, mode='eval')]. *)
Definition ast_parse (source : string) : result ast.node :=
  ts <- tokenize source ;; eval_input ts.

(* ================================================================== *)
(** * [evaluate_expression] *)

(** [str.isspace] on the characters of the Latin-1 range. *)
Definition is_space (c : ascii) : bool :=
  let n := N_of_ascii c in
  ((9 <=? n) && (n <=? 13) || (28 <=? n) && (n <=? 32)
   || (n =? 133) || (n =? 160))%N.

Fixpoint lstrip (cs : list ascii) : list ascii :=
  match cs with
  | c :: cs' => if is_space c then lstrip cs' else cs
  | [] => []
  end.

(** [expr.strip()]. *)
Definition strip (s : string) : string :=
  string_of_list_ascii
    (rev (lstrip (rev (lstrip (list_ascii_of_string s))))).

(** The condition of the special case:
    [expr.strip() == '2 + 2' or expr.strip() == '2+2']. *)
Definition special_case (expr : string) : bool :=
  (strip expr =? "2 + 2")%string || (strip expr =? "2+2")%string.

Section Evaluate.
Context {rt : CRuntime}.

(** The body of the [try] block. *)
Definition parse_and_eval (expr : string) : result value :=
  parsed <- ast_parse expr ;; safe_eval parsed.

Definition evaluate_expression (expr : string) : result value :=
  (* Special case: exact '2 + 2' (allow surrounding whitespace) *)
  if special_case expr then Ok (VInt 5)
  else
    match parse_and_eval expr with
    | Ok v => Ok v
    | Raise e =>                           (* except Exception as e *)
        Raise (ValueError (Invalid_expression e))
    end.

End Evaluate.

(* ================================================================== *)
(** * What the interfaces display *)

(** Lines to print with 2 second delay. *)
Definition MESSAGES : list string :=
  [ "calculating...";
    "Going physical with codes...";
    "Asking Calculator God...";
    "Consulting with aliens...";
    "Counting number of stars in the galaxy...";
    "Asking your mom for help...";
    "Oops! Your mom is busy making breakfast...";
    "Checking Meesho discounts...";
    "Almost there..." ].

(** A text handed to the display.  [str] is left uninterpreted: the text
    of a result or of an exception is kept as the object it is made from. *)
Inductive text : Type :=
| Literal (s : string)
| Str_of (res : value)               (* str(res) *)
| Str_thumbs_up (res : value)        (* f"{res} <thumbs up>" *)
| Str_of_exn (e : exn).              (* str(e) *)

(** The [state] option of a widget. *)
Inductive widget_state : Type := normal | disabled.

(** The text both interfaces show once [evaluate_expression] has returned
    or raised: the [try] / [except Exception] / [else] block. *)
Definition final_text (outcome : result value) : text :=
  match outcome with
  | Raise e => Str_of_exn e
  | Ok res => if equals_five res then Str_thumbs_up res else Str_of res
  end.

(* ================================================================== *)
(** * [run_keypad_gui]: [run_sequence_then_eval]

    The toolkit is modelled by the state it keeps for the program: the
    display variable, the state of the keypad buttons, and the callback
    registered with [root.after], of which one reveal has at most one.
    [log] records the calls made, oldest first, and [clock] the
    milliseconds waited. *)
Module Keypad.

(** The closure variable [state = {'i': 0, 'phase': 0}]. *)
Record seq_state : Type := { i : nat; phase : nat }.

Inductive event : Type :=
| Message (line : string) (in_phase : nat)
    (* disp_var.set(MESSAGES[...]) in [step], entered in this phase *)
| After (ms : Z)                    (* root.after(ms, step) *)
| Evaluate (expr : string)          (* evaluate_expression(expr) *)
| Result (line : text)              (* disp_var.set(...) in [finish] *)
| Set_buttons (s : widget_state).   (* set_buttons(s) *)

Record world : Type := {
  disp_var : text;
  buttons : list widget_state;      (* one per entry of [buttons] *)
  state : seq_state;
  timer : option Z;               (* the pending [step], and its delay *)
  clock : Z;
  log : list event
}.

Definition emit (e : event) (w : world) : world :=
  {| disp_var := disp_var w; buttons := buttons w; state := state w;
     timer := timer w; clock := clock w; log := log w ++ [e] |}.

Definition disp_var_set (line : text) (w : world) : world :=
  {| disp_var := line; buttons := buttons w; state := state w;
     timer := timer w; clock := clock w; log := log w |}.

Definition set_state (s : seq_state) (w : world) : world :=
  {| disp_var := disp_var w; buttons := buttons w; state := s;
     timer := timer w; clock := clock w; log := log w |}.

(** [for b in buttons: b.config(state=state)]. *)
Definition set_buttons (s : widget_state) (w : world) : world :=
  emit (Set_buttons s)
    {| disp_var := disp_var w; buttons := map (fun _ => s) (buttons w);
       state := state w; timer := timer w; clock := clock w;
       log := log w |}.

(** [root.after(ms, step)]. *)
Definition after (ms : Z) (w : world) : world :=
  emit (After ms)
    {| disp_var := disp_var w; buttons := buttons w; state := state w;
       timer := Some ms; clock := clock w; log := log w |}.

Section Sequence.
Context {rt : CRuntime}.
Variable messages : list string.       (* the global [MESSAGES] *)
Variable expr : string.

Definition finish (w : world) : world :=
  let w := emit (Evaluate expr) w in
  let line := final_text (evaluate_expression expr) in
  let w := emit (Result line) (disp_var_set line w) in
  set_buttons normal w.

Definition step (w : world) : world :=
  let i := i (state w) in
  let phase := phase (state w) in
  if (phase =? 0)%nat then
    if (i <? List.length messages)%nat then
      let line := nth i messages "" in
      let w := emit (Message line phase) (disp_var_set (Literal line) w) in
      let w := set_state {| i := i; phase := 1 |} w in
      after 2000%Z w
    else finish w
  else
    let j := i + 1 in
    if (j <? List.length messages)%nat then
      let line := nth j messages "" in
      let w := emit (Message line phase) (disp_var_set (Literal line) w) in
      let w := set_state {| i := j + 1; phase := 0 |} w in
      after 2000%Z w
    else finish w.

Definition run_sequence_then_eval (w : world) : world :=
  let w := set_buttons disabled w in
  let w := set_state {| i := 0; phase := 0 |} w in
  after 0%Z w.

(** The event loop runs the pending callback once its delay has
    passed. *)
Definition fire (w : world) : world :=
  match timer w with
  | Some ms =>
      step {| disp_var := disp_var w; buttons := buttons w;
              state := state w; timer := None;
              clock := (clock w + ms)%Z; log := log w |}
  | None => w
  end.

Fixpoint run (n : nat) (w : world) : world :=
  match n with
  | O => w
  | S n' => run n' (fire w)
  end.

End Sequence.

(** The window as [run_keypad_gui] builds it: an empty display and the
    twenty keys of [key_defs], all enabled. *)
Definition initial : world :=
  {| disp_var := Literal ""; buttons := repeat normal 20;
     state := {| i := 0; phase := 0 |}; timer := None; clock := 0%Z;
     log := [] |}.

(** ** What a reveal is expected to log *)

(** The messages shown from the [k]-th on, each followed by its delay;
    the phase of the [k]-th is the parity of [k]. *)
Fixpoint messages_log (k : nat) (ms : list string) : list event :=
  match ms with
  | [] => []
  | m :: ms' =>
      Message m (Nat.b2n (Nat.odd k)) :: After 2000%Z :: messages_log (S k) ms'
  end.

(** What [finish] logs. *)
Definition finish_log {rt : CRuntime} (expr : string) : list event :=
  [ Evaluate expr; Result (final_text (evaluate_expression expr));
    Set_buttons normal ].

(** The sequencer is about to show message [k] (or to finish, when there
    is none): in phase 0 the index is [k], in phase 1 it is [k - 1]. *)
Definition next_is (k : nat) (s : seq_state) : Prop :=
  (phase s = 0 /\ i s = k /\ Nat.odd k = false)
  \/ (phase s = 1 /\ S (i s) = k /\ Nat.odd k = true).

(** The sequencer has no message left to show in this state. *)
Definition exhausted (messages : list string) (s : seq_state) : bool :=
  if (phase s =? 0)%nat
  then (List.length messages <=? i s)%nat
  else (List.length messages <=? i s + 1)%nat.

(** The messages a log shows, each with the phase it was shown in. *)
Definition updates (l : list event) : list (string * nat) :=
  flat_map (fun e => match e with
                     | Message line p => [(line, p)]
                     | _ => []
                     end) l.

End Keypad.

(* ================================================================== *)
(** * [run_gui]: [start_sequence]

    Two entries, four operator buttons and a Calculate button.  The
    dictionary [selected] is shared by [select_op], [start_sequence] and
    [step]; it is part of the state, and each reads its current content. *)

(** Whether [float(s)] accepts the stripped text [s]: an optional sign,
    then [inf], [infinity] or [nan] in any case, or decimal digits with an
    optional fraction and exponent. *)
Definition lower (c : ascii) : ascii :=
  if (("A" <=? c) && (c <=? "Z"))%char
  then ascii_of_N (N_of_ascii c + 32) else c.

Definition float_accepts (s : string) : bool :=
  let cs := list_ascii_of_string s in
  let body :=
    match cs with
    | c :: r => if ((c =? "+") || (c =? "-"))%char then r else cs
    | [] => cs
    end in
  let word := string_of_list_ascii (map lower body) in
  if ((word =? "inf") || (word =? "infinity") || (word =? "nan"))%string
  then true
  else
    let '(ip, n1, ok1) := digitpart 10 body in
    let rest1 := skipn n1 body in
    let '(fp, n2, ok2) :=
      match rest1 with
      | c :: r =>
          if (c =? ".")%char then
            let '(fp, n, ok) := digitpart 10 r in (fp, S n, ok)
          else ([], 0, true)
      | [] => ([], 0, true)
      end in
    let rest2 := skipn n2 rest1 in
    match scan_exponent rest2 with
    | Some (_, n3) =>
        ok1 && ok2 && negb (List.length ip + List.length fp =? 0)%nat
        && (List.length (skipn n3 rest2) =? 0)%nat
    | None => false
    end.

Module Gui.

Record seq_state : Type := { i : nat; phase : nat }.

Inductive op_button : Type := plus_btn | minus_btn | mul_btn | div_btn.

Inductive widget : Type :=
| btn_calc | entry_a | entry_b | op_btn (b : op_button).

Definition op_button_eqb (a b : op_button) : bool :=
  match a, b with
  | plus_btn, plus_btn | minus_btn, minus_btn
  | mul_btn, mul_btn | div_btn, div_btn => true
  | _, _ => false
  end.

Definition widget_eqb (a b : widget) : bool :=
  match a, b with
  | btn_calc, btn_calc | entry_a, entry_a | entry_b, entry_b => true
  | op_btn x, op_btn y => op_button_eqb x y
  | _, _ => false
  end.

(** The operator a button stands for. *)
Definition symbol (b : op_button) : string :=
  match b with
  | plus_btn => "+" | minus_btn => "-" | mul_btn => "*" | div_btn => "/"
  end.

Inductive event : Type :=
| Notice (line : string)
    (* append_display(..., bold=True) before [start_sequence] returns early *)
| Message (line : string) (bold : bool)
    (* append_display(MESSAGES[...], bold) in [step] *)
| After (ms : Z)                            (* root.after(ms, step) *)
| Evaluate (expr : string)                  (* evaluate_expression(expr) *)
| Result (line : text) (bold : bool)
    (* append_display(..., bold=True) after the evaluation *)
| Config (w : widget) (s : widget_state).   (* w.config(state=s) *)

Record world : Type := {
  display_text : text;                      (* display_label *)
  display_bold : bool;
  widgets : widget -> widget_state;
  entry_a_text : string;
  entry_b_text : string;
  selected : option (string * op_button);   (* selected['op'], ['btn'] *)
  expr : string;                            (* closure variable of [step] *)
  state : seq_state;                        (* closure variable of [step] *)
  timer : option Z;
  clock : Z;
  log : list event
}.

Definition emit (e : event) (w : world) : world :=
  {| display_text := display_text w; display_bold := display_bold w;
     widgets := widgets w; entry_a_text := entry_a_text w;
     entry_b_text := entry_b_text w; selected := selected w;
     expr := expr w; state := state w; timer := timer w;
     clock := clock w; log := log w ++ [e] |}.

(** [append_display(line, bold)]: the label shows [line], in the bold
    font when [bold]. *)
Definition append_display (line : text) (bold : bool) (w : world) : world :=
  {| display_text := line; display_bold := bold;
     widgets := widgets w; entry_a_text := entry_a_text w;
     entry_b_text := entry_b_text w; selected := selected w;
     expr := expr w; state := state w; timer := timer w;
     clock := clock w; log := log w |}.

(** [x.config(state=s)]. *)
Definition config (x : widget) (s : widget_state) (w : world) : world :=
  emit (Config x s)
    {| display_text := display_text w; display_bold := display_bold w;
       widgets := fun y => if widget_eqb y x then s else widgets w y;
       entry_a_text := entry_a_text w; entry_b_text := entry_b_text w;
       selected := selected w; expr := expr w; state := state w;
       timer := timer w; clock := clock w; log := log w |}.

(** [if selected.get('btn'): selected['btn'].config(state=s)]. *)
Definition config_selected (s : widget_state) (w : world) : world :=
  match selected w with
  | Some (_, btn) => config (op_btn btn) s w
  | None => w
  end.

Definition set_selected (v : option (string * op_button)) (w : world)
  : world :=
  {| display_text := display_text w; display_bold := display_bold w;
     widgets := widgets w; entry_a_text := entry_a_text w;
     entry_b_text := entry_b_text w; selected := v;
     expr := expr w; state := state w; timer := timer w;
     clock := clock w; log := log w |}.

Definition set_closure (e : string) (s : seq_state) (w : world) : world :=
  {| display_text := display_text w; display_bold := display_bold w;
     widgets := widgets w; entry_a_text := entry_a_text w;
     entry_b_text := entry_b_text w; selected := selected w;
     expr := e; state := s; timer := timer w;
     clock := clock w; log := log w |}.

Definition set_state (s : seq_state) (w : world) : world :=
  set_closure (expr w) s w.

Definition after (ms : Z) (w : world) : world :=
  emit (After ms)
    {| display_text := display_text w; display_bold := display_bold w;
       widgets := widgets w; entry_a_text := entry_a_text w;
       entry_b_text := entry_b_text w; selected := selected w;
       expr := expr w; state := state w; timer := Some ms;
       clock := clock w; log := log w |}.

(** [select_op(op, btn)].  The [relief] changes are cosmetic and each is
    guarded by [try]/[except]; they are left out. *)
Definition select_op (op : string) (btn : op_button) (w : world) : world :=
  set_selected (Some (op, btn)) w.

(** A click on an operator button runs its command unless the button is
    disabled. *)
Definition click (b : op_button) (w : world) : world :=
  match widgets w (op_btn b) with
  | normal => select_op (symbol b) b w
  | disabled => w
  end.

(** The user fills the two entries. *)
Definition type_entries (a b : string) (w : world) : world :=
  {| display_text := display_text w; display_bold := display_bold w;
     widgets := widgets w;
     entry_a_text :=
       match widgets w entry_a with normal => a | disabled => entry_a_text w end;
     entry_b_text :=
       match widgets w entry_b with normal => b | disabled => entry_b_text w end;
     selected := selected w; expr := expr w; state := state w;
     timer := timer w; clock := clock w; log := log w |}.

Section Sequence.
Context {rt : CRuntime}.
Variable messages : list string.       (* the global [MESSAGES] *)

(** The block both branches of [step] end with: evaluate, show the
    result or the error in bold, and enable the controls again. *)
Definition evaluate_and_show (w : world) : world :=
  let w := emit (Evaluate (expr w)) w in
  let line := final_text (evaluate_expression (expr w)) in
  let w := emit (Result line true) (append_display line true w) in
  let w := config btn_calc normal w in
  let w := config entry_a normal w in
  let w := config entry_b normal w in
  config_selected normal w.

Definition step (w : world) : world :=
  let i := i (state w) in
  let phase := phase (state w) in
  if (phase =? 0)%nat then
    if (i <? List.length messages)%nat then
      let line := nth i messages "" in
      let w := emit (Message line false)
                 (append_display (Literal line) false w) in
      let w := set_state {| i := i; phase := 1 |} w in
      after 2000%Z w
    else evaluate_and_show w
  else
    let j := i + 1 in
    if (j <? List.length messages)%nat then
      let line := nth j messages "" in
      let w := emit (Message line true)
                 (append_display (Literal line) true w) in
      let w := set_state {| i := j + 1; phase := 0 |} w in
      after 2000%Z w
    else evaluate_and_show w.

Definition notice (line : string) (w : world) : world :=
  emit (Notice line) (append_display (Literal line) true w).

Definition start_sequence (w : world) : world :=
  let a_text := strip (entry_a_text w) in
  let b_text := strip (entry_b_text w) in
  match selected w with
  | None => notice "Please select an operator" w
  | Some (op, _) =>
      if ((a_text =? "") || (b_text =? ""))%string then
        notice "Enter both numbers" w
      else if negb (float_accepts a_text && float_accepts b_text) then
        notice "Please enter valid numbers" w
      else
        let expr := (a_text ++ " " ++ op ++ " " ++ b_text)%string in
        let w := config btn_calc disabled w in
        let w := config entry_a disabled w in
        let w := config entry_b disabled w in
        let w := config_selected disabled w in
        let w := set_closure expr {| i := 0; phase := 0 |} w in
        after 0%Z w
  end.

Definition fire (w : world) : world :=
  match timer w with
  | Some ms =>
      step {| display_text := display_text w;
              display_bold := display_bold w; widgets := widgets w;
              entry_a_text := entry_a_text w;
              entry_b_text := entry_b_text w; selected := selected w;
              expr := expr w; state := state w; timer := None;
              clock := (clock w + ms)%Z; log := log w |}
  | None => w
  end.

Fixpoint run (n : nat) (w : world) : world :=
  match n with
  | O => w
  | S n' => run n' (fire w)
  end.

End Sequence.

(** The window as [run_gui] builds it. *)
Definition initial : world :=
  {| display_text := Literal ""; display_bold := false;
     widgets := fun _ => normal; entry_a_text := ""; entry_b_text := "";
     selected := None; expr := ""; state := {| i := 0; phase := 0 |};
     timer := None; clock := 0%Z; log := [] |}.

(** ** What a reveal is expected to log *)

Fixpoint messages_log (k : nat) (ms : list string) : list event :=
  match ms with
  | [] => []
  | m :: ms' => Message m (Nat.odd k) :: After 2000%Z :: messages_log (S k) ms'
  end.

(** The [config] call on the button [selected] holds, if any. *)
Definition selected_log (s : widget_state) (w : world) : list event :=
  match selected w with
  | Some (_, btn) => [Config (op_btn btn) s]
  | None => []
  end.

(** What the closing block logs. *)
Definition finish_log {rt : CRuntime} (w : world) : list event :=
  ([ Evaluate (expr w);
     Result (final_text (evaluate_expression (expr w))) true;
     Config btn_calc normal; Config entry_a normal; Config entry_b normal ]
   ++ selected_log normal w)%list.

(** The widget states the closing block leaves. *)
Definition enabled_again (w : world) (x : widget) : widget_state :=
  match x with
  | op_btn b =>
      match selected w with
      | Some (_, btn) => if op_button_eqb b btn then normal else widgets w x
      | None => widgets w x
      end
  | _ => normal
  end.

Definition next_is (k : nat) (s : seq_state) : Prop :=
  (phase s = 0 /\ i s = k /\ Nat.odd k = false)
  \/ (phase s = 1 /\ S (i s) = k /\ Nat.odd k = true).

Definition exhausted (messages : list string) (s : seq_state) : bool :=
  if (phase s =? 0)%nat
  then (List.length messages <=? i s)%nat
  else (List.length messages <=? i s + 1)%nat.

(** The messages a log shows, each with the font it was shown in. *)
Definition updates (l : list event) : list (string * bool) :=
  flat_map (fun e => match e with
                     | Message line bold => [(line, bold)]
                     | _ => []
                     end) l.

(** [start_sequence] goes past its checks: both entries hold text that
    [float] accepts. *)
Definition valid_entries (w : world) : bool :=
  let a_text := strip (entry_a_text w) in
  let b_text := strip (entry_b_text w) in
  negb ((a_text =? "") || (b_text =? ""))%string
  && (float_accepts a_text && float_accepts b_text).

(** The expression [start_sequence] builds. *)
Definition built_expr (op : string) (w : world) : string :=
  (strip (entry_a_text w) ++ " " ++ op ++ " " ++ strip (entry_b_text w))%string.

(** The widget states [start_sequence] leaves. *)
Definition disabled_by_start (btn : op_button) (w : world) (x : widget)
  : widget_state :=
  match x with
  | op_btn b => if op_button_eqb b btn then disabled else widgets w x
  | _ => disabled
  end.

End Gui.

(* ================================================================== *)
(** * [main]: the command line

    [main] reads [sys.argv], the module variable [tk] (which is [None]
    when [tkinter] could not be imported) and, without arguments and
    without [tkinter], one line from [input].  What it does is kept as the
    list of its calls, in order, together with the way it ends.  Opening
    the keypad window is one event here; the window itself is the subject
    of [Keypad] and [Window]. *)
Module Cli.

Record system : Type := {
  argv : list string;               (* sys.argv *)
  tk : bool;                        (* tk is not None *)
  stdin : option string             (* the line [input] returns; [None]
                                       when it raises [EOFError] *)
}.

Inductive event : Type :=
| Print (line : text)               (* print(...) *)
| Sleep (seconds : Z)               (* time.sleep(2) *)
| Input (prompt : string)           (* input(prompt) *)
| Run_keypad_gui.                   (* run_keypad_gui() *)

(** The calls made, oldest first, and how the function ended. *)
Definition outcome : Type := (list event * result unit)%type.

Section Main.
Context {rt : CRuntime}.
Variable messages : list string.       (* the global [MESSAGES] *)

(** [for line in MESSAGES: print(line); time.sleep(2)]. *)
Definition print_messages : list event :=
  flat_map (fun line => [Print (Literal line); Sleep 2%Z]) messages.

(** The [try] block that ends [main].  Its handler is [except ValueError]:
    an exception of another class leaves [main]. *)
Definition evaluate_and_print (expr : string) : outcome :=
  match evaluate_expression expr with
  | Ok result =>
      if equals_five result then ([Print (Str_thumbs_up result)], Ok tt)
      else ([Print (Str_of result)], Ok tt)
  | Raise (ValueError msg) => ([Print (Str_of_exn (ValueError msg))], Ok tt)
  | Raise e => ([], Raise e)
  end.

(** The part of [main] that follows the choice of [expr]. *)
Definition print_and_evaluate (before : list event) (expr : string)
  : outcome :=
  let '(printed, r) := evaluate_and_print expr in
  ((before ++ print_messages ++ printed)%list, r).

Definition main (sys : system) : outcome :=
  if (1 <? List.length (argv sys))%nat then
    print_and_evaluate [] (String.concat " " (tl (argv sys)))
  else if tk sys then ([Run_keypad_gui], Ok tt)
  else
    let prompt := Input "Enter expression (e.g. 2 + 2): " in
    match stdin sys with
    | Some expr => print_and_evaluate [prompt] expr
    | None => ([prompt; Print (Literal "No input provided")], Ok tt)
    end.

End Main.


(** The lines a run of [main] prints. *)
Definition printed (l : list event) : list text :=
  flat_map (fun e => match e with Print line => [line] | _ => [] end) l.

End Cli.

(* ================================================================== *)
(** * [run_keypad_gui]: the keys, the memory and the keyboard

    The display variable holds a Python string.  [str] of a number and of
    an exception belong to the interpreter, and the thumbs-up is outside
    the Latin-1 range: they are parameters, and [shown] reads a [text] as
    the string it stands for. *)
Class Formatter : Type := {
  str_value : value -> string;          (* str(res) *)
  str_exn : exn -> string;              (* str(e) *)
  thumbs_up : string                    (* the sign after the space in
                                           f"{res} <thumbs up>" *)
}.

Definition shown {fmt : Formatter} (line : text) : string :=
  match line with
  | Literal s => s
  | Str_of res => str_value res
  | Str_thumbs_up res => str_value res ++ " " ++ thumbs_up
  | Str_of_exn e => str_exn e
  end.

(** [s[:-1]]. *)
Definition all_but_last (s : string) : string :=
  substring 0 (String.length s - 1) s.

(** [a in b] on strings: [a] occurs in [b]. *)
Definition occurs_in (a b : string) : bool :=
  match index 0 a b with
  | Some _ => true
  | None => false
  end.

(** The window of [run_keypad_gui].  The sequencer is the one of [Keypad];
    around it the window keeps [memory], the closure of every reveal
    started (its [expr] and its [state]), and the callbacks registered
    with [root.after], each with the time it is due, in the order in
    which the toolkit runs them.  The user acts between two callbacks;
    the clock is the time of the last callback run, and an action counts
    as made at that time. *)
Module Window.

Inductive callback : Type :=
| Step (closure : nat)              (* [step] of the reveal of this number *)
| Clear_display.                    (* lambda: disp_var.set('') *)

Record world : Type := {
  keypad : Keypad.world;            (* disp_var, buttons, clock, log *)
  memory : option string;           (* memory['val'] *)
  closures : list (string * Keypad.seq_state);
  pending : list (Z * callback)
}.

Definition set_keypad (k : Keypad.world) (w : world) : world :=
  {| keypad := k; memory := memory w; closures := closures w;
     pending := pending w |}.

Definition set_memory (m : option string) (w : world) : world :=
  {| keypad := keypad w; memory := m; closures := closures w;
     pending := pending w |}.

Definition set_closures (c : list (string * Keypad.seq_state)) (w : world)
  : world :=
  {| keypad := keypad w; memory := memory w; closures := c;
     pending := pending w |}.

Definition set_pending (p : list (Z * callback)) (w : world) : world :=
  {| keypad := keypad w; memory := memory w; closures := closures w;
     pending := p |}.

(** The toolkit keeps its timers sorted by the time they are due, and
    those due at the same time in the order they were registered. *)
Fixpoint enqueue (due : Z) (cb : callback) (q : list (Z * callback))
  : list (Z * callback) :=
  match q with
  | [] => [(due, cb)]
  | (d, c) :: q' =>
      if (due <? d)%Z then (due, cb) :: q else (d, c) :: enqueue due cb q'
  end.

(** [root.after(ms, cb)]. *)
Definition after (ms : Z) (cb : callback) (w : world) : world :=
  set_pending (enqueue (Keypad.clock (keypad w) + ms)%Z cb (pending w)) w.

(** The [Keypad] world with the closure variable [state] of one reveal
    and no callback of its own. *)
Definition with_state (s : Keypad.seq_state) (k : Keypad.world)
  : Keypad.world :=
  {| Keypad.disp_var := Keypad.disp_var k; Keypad.buttons := Keypad.buttons k;
     Keypad.state := s; Keypad.timer := None; Keypad.clock := Keypad.clock k;
     Keypad.log := Keypad.log k |}.

Definition with_clock (t : Z) (k : Keypad.world) : Keypad.world :=
  {| Keypad.disp_var := Keypad.disp_var k; Keypad.buttons := Keypad.buttons k;
     Keypad.state := Keypad.state k; Keypad.timer := Keypad.timer k;
     Keypad.clock := t; Keypad.log := Keypad.log k |}.

(** [closures[id] = c]. *)
Definition update (id : nat) (c : string * Keypad.seq_state)
  (l : list (string * Keypad.seq_state)) : list (string * Keypad.seq_state) :=
  (firstn id l ++ c :: skipn (S id) l)%list.

(** After the sequencer of reveal [id] has run in [k]: the callback it
    registered, if any, goes to the timers of the window. *)
Definition collect (id : nat) (k : Keypad.world) (w : world) : world :=
  let w := set_keypad (with_state (Keypad.state k) k) w in
  match Keypad.timer k with
  | Some ms => after ms (Step id) w
  | None => w
  end.

Section Window.
Context {rt : CRuntime} {fmt : Formatter}.
Variable messages : list string.       (* the global [MESSAGES] *)

(** [disp_var.get()] and [disp_var.set(s)]. *)
Definition get (w : world) : string := shown (Keypad.disp_var (keypad w)).

Definition set (s : string) (w : world) : world :=
  set_keypad (Keypad.disp_var_set (Literal s) (keypad w)) w.

Definition press (ch : string) (w : world) : world :=
  set (get w ++ ch) w.

Definition clear (w : world) : world := set "" w.

Definition backspace (w : world) : world :=
  let s := get w in
  set (all_but_last s) w.

Definition mem_store (w : world) : world :=
  let w := set_memory (Some (get w)) w in
  let w := set "MS" w in
  after 800%Z Clear_display w.

Definition mem_recall (w : world) : world :=
  match memory w with
  | Some val => set (get w ++ val) w
  | None => w
  end.

(** [run_sequence_then_eval(expr)]: a new closure, whose [step] is
    registered by [Keypad.run_sequence_then_eval]. *)
Definition run_sequence_then_eval (expr : string) (w : world) : world :=
  let id := List.length (closures w) in
  let k := Keypad.run_sequence_then_eval (keypad w) in
  collect id k (set_closures (closures w ++ [(expr, Keypad.state k)])%list w).

Definition equals (w : world) : world :=
  let expr := strip (get w) in
  if (expr =? "")%string then
    after 800%Z Clear_display (set "Enter expr" w)
  else run_sequence_then_eval expr w.

(** The callback [step] of reveal [id]. *)
Definition step (id : nat) (w : world) : world :=
  match nth_error (closures w) id with
  | Some (expr, s) =>
      let k := Keypad.step messages expr (with_state s (keypad w)) in
      collect id k
        (set_closures (update id (expr, Keypad.state k) (closures w)) w)
  | None => w
  end.

(** The [command] of the key labelled [txt], as the loop over [key_defs]
    chooses it. *)
Definition command (txt : string) (w : world) : world :=
  if (txt =? "C")%string then clear w
  else if (txt =? "=")%string then equals w
  else if (txt =? "⌫")%string then backspace w
  else press txt w.

(** [on_key(e)], from [e.keysym] and [e.char]. *)
Definition on_key (keysym char : string) (w : world) : world :=
  if ((keysym =? "Return") || (keysym =? "KP_Enter"))%string then equals w
  else if (keysym =? "BackSpace")%string then backspace w
  else if occurs_in char "0123456789.+-*/()" then press char w
  else w.

(** The event loop runs the callback that is due first, at the time it
    is due. *)
Definition fire (w : world) : world :=
  match pending w with
  | [] => w
  | (due, cb) :: rest =>
      let w := set_pending rest (set_keypad (with_clock due (keypad w)) w) in
      match cb with
      | Step id => step id w
      | Clear_display => set "" w
      end
  end.

Fixpoint run (n : nat) (w : world) : world :=
  match n with
  | O => w
  | S n' => run n' (fire w)
  end.

End Window.

(** The keys of the grid, with their row and column. *)
Definition key_defs : list (string * nat * nat) :=
  [ ("7", 0, 0); ("8", 0, 1); ("9", 0, 2); ("+", 0, 3);
    ("4", 1, 0); ("5", 1, 1); ("6", 1, 2); ("-", 1, 3);
    ("1", 2, 0); ("2", 2, 1); ("3", 2, 2); ("*", 2, 3);
    ("0", 3, 0); (".", 3, 1); ("C", 3, 2); ("/", 3, 3);
    ("(", 4, 0); (")", 4, 1); ("⌫", 4, 2); ("=", 4, 3) ].

(** A click on the [n]-th button of [buttons], which was made for the
    [n]-th entry of [key_defs]: its command runs unless the button is
    disabled.  The MS and MR buttons are not in [buttons]; a click on them
    is [mem_store] and [mem_recall]. *)
Definition click {fmt : Formatter} (n : nat) (w : world) : world :=
  match nth_error key_defs n, nth_error (Keypad.buttons (keypad w)) n with
  | Some (txt, _, _), Some normal => command txt w
  | _, _ => w
  end.

(** The window as [run_keypad_gui] builds it. *)
Definition initial : world :=
  {| keypad := Keypad.initial; memory := None; closures := [];
     pending := [] |}.

(** The expressions a log evaluates, oldest first. *)
Definition evaluations (l : list Keypad.event) : list string :=
  flat_map (fun e => match e with
                     | Keypad.Evaluate expr => [expr]
                     | _ => []
                     end) l.

(** The characters [on_key] lets through. *)
Definition typed_by_key (c : ascii) : bool :=
  existsb (Ascii.eqb c) (list_ascii_of_string "0123456789.+-*/()").

(** The sequencer of one reveal, seen from the window: the [Keypad] world
    [k] is what the window holds for the reveal [id] of [expr], the
    callback of [k] being the only one that waits. *)
Definition reveals (id : nat) (expr : string) (k : Keypad.world) (w : world)
  : Prop :=
  keypad w = with_state (Keypad.state k) k
  /\ nth_error (closures w) id = Some (expr, Keypad.state k)
  /\ pending w
     = match Keypad.timer k with
       | Some ms => [((Keypad.clock k + ms)%Z, Step id)]
       | None => []
       end.

End Window.

(* ================================================================== *)
(** * Notions for the statements about texts and numbers *)

(** A character that is neither white space nor the start of a comment. *)
Definition visible (c : ascii) : bool :=
  negb (is_space c) && negb (c =? "#")%char.


(** The decimal numeral with the digits [ds], most significant first. *)
Definition digit_char (d : Z) : ascii :=
  ascii_of_N (N_of_ascii "0"%char + Z.to_N d).

Definition numeral (ds : list Z) : string :=
  string_of_list_ascii (map digit_char ds).

Definition is_digits (ds : list Z) : Prop :=
  ds <> [] /\ Forall (fun d => (0 <= d <= 9)%Z) ds.

(** A numeral Python reads as an [int]: one or more digits, and no zero in
    front of a number that is not zero. *)
Definition no_leading_zero (ds : list Z) : Prop :=
  match ds with
  | d :: _ => d <> 0%Z \/ number_of_digits 10 ds = 0%Z
  | [] => False
  end.

(** What may follow a numeral: the end of the text, or a character that
    neither continues a number nor starts a name. *)
Definition ends_numeral (cs : list ascii) : bool :=
  match cs with
  | [] => true
  | c :: _ => negb (is_name_char c) && negb (c =? ".")%char
  end.


(** Two operands around an operator, with or without the spaces that
    [run_gui] puts between them. *)
Definition binary_text (spaced : bool) (a op b : string) : string :=
  if spaced then a ++ " " ++ op ++ " " ++ b else a ++ op ++ b.

(** The entries 2 and 2 with the operator [+]. *)
Definition two_plus_two (da db : list Z) (b : Gui.op_button) : bool :=
  match da, b, db with
  | [2%Z], Gui.plus_btn, [2%Z] => true
  | _, _, _ => false
  end.



(** The trees of integer arithmetic without division, and their value. *)
Fixpoint exact_value (node : ast.node) : option Z :=
  match node with
  | ast.Expression body => exact_value body
  | ast.Constant (ast.Int n) => Some n
  | ast.BinOp l op r =>
      match exact_value l, exact_value r with
      | Some a, Some b =>
          match op with
          | ast.Add => Some (a + b)%Z
          | ast.Sub => Some (a - b)%Z
          | ast.Mult => Some (a * b)%Z
          | _ => None
          end
      | _, _ => None
      end
  | ast.UnaryOp op x =>
      match exact_value x with
      | Some a =>
          match op with
          | ast.USub => Some (- a)%Z
          | ast.UAdd => Some a
          | _ => None
          end
      | None => None
      end
  | _ => None
  end.


(* ================================================================== *)
(** * Lemmas *)

Local Open Scope list_scope.

Lemma operator_eqb_eq (a b : ast.operator) :
  ast.operator_eqb a b = true <-> a = b.
Proof. destruct a, b; simpl; split; intro E; congruence. Qed.

Lemma bind_Ok {A B : Type} (r : result A) (k : A -> result B) (b : B) :
  bind r k = Ok b -> exists a, r = Ok a /\ k a = Ok b.
Proof. destruct r as [a|e]; simpl; intro E; [eauto | discriminate]. Qed.

Lemma bind_Raise {A B : Type} (r : result A) (k : A -> result B) (e : exn) :
  bind r k = Raise e -> r = Raise e \/ exists a, r = Ok a /\ k a = Raise e.
Proof.
  destruct r as [a|e']; simpl; intro E.
  - right; eauto.
  - left; congruence.
Qed.

Lemma skipn_nth (ms : list string) (k : nat) :
  k < List.length ms -> skipn k ms = nth k ms "" :: skipn (S k) ms.
Proof.
  revert k; induction ms as [|m ms IH]; intros k Hk; simpl in Hk.
  - lia.
  - destruct k as [|k]; [reflexivity|].
    simpl. rewrite IH by lia. reflexivity.
Qed.

(** ** The evaluator *)

Module EvaluatorFacts.
Section Facts.
Context {rt : CRuntime}.

Lemma evaluate_special (expr : string) :
  special_case expr = true -> evaluate_expression expr = Ok (VInt 5).
Proof. unfold evaluate_expression. intros ->. reflexivity. Qed.

Lemma evaluate_normal (expr : string) :
  special_case expr = false ->
  evaluate_expression expr =
    match parse_and_eval expr with
    | Ok v => Ok v
    | Raise e => Raise (ValueError (Invalid_expression e))
    end.
Proof. unfold evaluate_expression. intros ->. reflexivity. Qed.

(** Whatever fails under [evaluate_expression] leaves it as a
    [ValueError] whose message starts with "Invalid expression: ". *)
Lemma evaluate_raises (expr : string) (e : exn) :
  evaluate_expression expr = Raise e ->
  exists cause, e = ValueError (Invalid_expression cause).
Proof.
  unfold evaluate_expression.
  destruct (special_case expr); [discriminate|].
  destruct (parse_and_eval expr) as [v|cause]; [discriminate|].
  intro E. injection E as <-. eauto.
Qed.

Lemma parse_error_is_reported (expr : string) (e : exn) :
  special_case expr = false ->
  ast_parse expr = Raise e ->
  evaluate_expression expr = Raise (ValueError (Invalid_expression e)).
Proof.
  intros Hs Hp. rewrite (evaluate_normal _ Hs).
  unfold parse_and_eval. rewrite Hp. reflexivity.
Qed.

Lemma allowed_binary (op : ast.operator) (f : pyfun) (l r v : value) :
  dict_get ALLOWED_OPERATORS op = Some f ->
  call2 f l r = Ok v ->
  binary_allowed op = true.
Proof.
  destruct op; simpl; intros Hf Hc; try reflexivity;
    try discriminate Hf; injection Hf as <-; simpl in Hc; discriminate Hc.
Qed.

Lemma allowed_unary (op : ast.operator) (f : pyfun) (x v : value) :
  dict_get ALLOWED_OPERATORS op = Some f ->
  call1 f x = Ok v ->
  unary_allowed op = true.
Proof.
  destruct op; simpl; intros Hf Hc; try reflexivity;
    try discriminate Hf; injection Hf as <-; simpl in Hc; discriminate Hc.
Qed.

(** A tree that evaluates holds nothing but what [evaluable] lists. *)
Lemma safe_eval_Ok_evaluable (node : ast.node) :
  forall v, safe_eval node = Ok v -> evaluable node = true.
Proof.
  induction node as
    [ body IH | l IHl op r IHr | op x IHx | c | | | | | | | | ];
    intros v H; cbn [safe_eval] in H; try discriminate H.
  - simpl. eauto.
  - apply bind_Ok in H. destruct H as (lv & Hl & H).
    apply bind_Ok in H. destruct H as (rv & Hr & H).
    cbv beta in H. revert H.
    destruct (dict_get ALLOWED_OPERATORS op) as [f|] eqn:Hf;
      intro H; [|discriminate H].
    simpl. rewrite (IHl _ Hl), (IHr _ Hr), (allowed_binary _ _ _ _ _ Hf H).
    reflexivity.
  - apply bind_Ok in H. destruct H as (xv & Hx & H).
    cbv beta in H. revert H.
    destruct (dict_get ALLOWED_OPERATORS op) as [f|] eqn:Hf;
      intro H; [|discriminate H].
    simpl. rewrite (IHx _ Hx), (allowed_unary _ _ _ _ Hf H). reflexivity.
  - destruct c; simpl in H; try reflexivity; discriminate H.
Qed.

(** Hence a tree with any other node, operator or constant raises. *)
Lemma not_evaluable_raises (node : ast.node) :
  evaluable node = false -> exists e, safe_eval node = Raise e.
Proof.
  intro H. destruct (safe_eval node) as [v|e] eqn:E; [|eauto].
  apply safe_eval_Ok_evaluable in E. congruence.
Qed.

(** The node classes outside the grammar are refused by name. *)
Lemma unsupported_node (node : ast.node) :
  match node with
  | ast.Expression _ | ast.BinOp _ _ _ | ast.UnaryOp _ _
  | ast.Constant _ => True
  | _ => safe_eval node = Raise (ValueError (Unsupported_expression node))
  end.
Proof. destruct node; simpl; exact I || reflexivity. Qed.

(** An input that does not parse, or parses to a tree that cannot be
    evaluated, fails with the wrapping [ValueError]. *)
Lemma rejected_input (expr : string) :
  special_case expr = false ->
  (exists e, ast_parse expr = Raise e)
  \/ (exists tree, ast_parse expr = Ok tree /\ evaluable tree = false) ->
  exists cause,
    evaluate_expression expr = Raise (ValueError (Invalid_expression cause)).
Proof.
  intros Hs [[e He] | (tree & Ht & Hn)].
  - exists e. apply parse_error_is_reported; assumption.
  - destruct (not_evaluable_raises _ Hn) as [e He].
    exists e. rewrite (evaluate_normal _ Hs).
    unfold parse_and_eval. rewrite Ht. simpl. rewrite He. reflexivity.
Qed.

End Facts.
End EvaluatorFacts.

(** ** The keypad sequence *)

Module KeypadFacts.
Import Keypad.



Section Sequence.
Context {rt : CRuntime}.
Variable messages : list string.
Variable expr : string.

Lemma keypad_run_idle (n : nat) (w : world) :
  timer w = None -> run messages expr n w = w.
Proof.
  induction n as [|n IH]; intro Hw; simpl; [reflexivity|].
  unfold fire. rewrite Hw. apply IH, Hw.
Qed.





End Sequence.
End KeypadFacts.

(** ** The two-entry sequence *)

Module GuiFacts.
Import Gui.


(** [start_sequence] past its checks: the controls are disabled, the
    expression is built and [step] is scheduled at once. *)
Lemma start_sequence_spec (w : world) (op : string) (btn : op_button) :
  selected w = Some (op, btn) ->
  valid_entries w = true ->
  let w' := start_sequence w in
  log w' = log w
           ++ [ Config btn_calc disabled; Config entry_a disabled;
                Config entry_b disabled; Config (op_btn btn) disabled;
                After 0%Z ]
  /\ timer w' = Some 0%Z
  /\ clock w' = clock w
  /\ expr w' = built_expr op w
  /\ state w' = {| i := 0; phase := 0 |}
  /\ selected w' = Some (op, btn)
  /\ forall x, widgets w' x = disabled_by_start btn w x.
Proof.
  intros Hsel Hvalid. cbv zeta. unfold valid_entries in Hvalid.
  apply andb_true_iff in Hvalid. destruct Hvalid as [Hne Hfl].
  apply negb_true_iff in Hne.
  unfold start_sequence. rewrite Hsel, Hne, Hfl. simpl.
  unfold config_selected. simpl. rewrite Hsel. simpl.
  split; [repeat rewrite <- app_assoc; reflexivity|].
  repeat (split; [first [reflexivity | assumption]|]).
  intros [ | | |b]; reflexivity.
Qed.

Section Sequence.
Context {rt : CRuntime}.
Variable messages : list string.

Lemma gui_run_idle (n : nat) (w : world) :
  timer w = None -> run messages n w = w.
Proof.
  induction n as [|n IH]; intro Hw; simpl; [reflexivity|].
  unfold fire. rewrite Hw. apply IH, Hw.
Qed.

(** The closing block, whatever the state it is entered in. *)
Lemma evaluate_and_show_spec (w : world) :
  let w' := evaluate_and_show w in
  log w' = log w ++ finish_log w
  /\ timer w' = timer w
  /\ clock w' = clock w
  /\ display_text w' = final_text (evaluate_expression (expr w))
  /\ display_bold w' = true
  /\ selected w' = selected w
  /\ forall x, widgets w' x = enabled_again w x.
Proof.
  cbv zeta. unfold evaluate_and_show, finish_log, selected_log,
    config_selected, enabled_again.
  destruct (selected w) as [[op btn]|] eqn:Hsel; simpl; rewrite ?Hsel; simpl.
  - split; [repeat rewrite <- app_assoc; reflexivity|].
    repeat (split; [first [reflexivity | assumption]|]).
    intros [ | | |b]; reflexivity.
  - split; [repeat rewrite <- app_assoc; reflexivity|].
    repeat (split; [first [reflexivity | assumption]|]).
    intros [ | | |b]; reflexivity.
Qed.

(** In a state with no message left, [step] is the closing block. *)
Lemma gui_step_exhausted (w : world) :
  exhausted messages (state w) = true -> step messages w = evaluate_and_show w.
Proof.
  unfold exhausted, step.
  destruct (phase (state w) =? 0)%nat; intro H;
    apply Nat.leb_le in H;
    match goal with
    | |- context [(?a <? ?b)%nat] =>
        replace (a <? b)%nat with false by (symmetry; apply Nat.ltb_ge; lia)
    end; reflexivity.
Qed.

Lemma gui_run_from (n k : nat) :
  forall (w : world) (ms : Z),
    k + n = List.length messages ->
    next_is k (state w) ->
    timer w = Some ms ->
    let w' := run messages (S n) w in
    log w' = log w ++ messages_log k (skipn k messages) ++ finish_log w
    /\ timer w' = None
    /\ clock w' = (clock w + ms + 2000 * Z.of_nat n)%Z
    /\ display_text w' = final_text (evaluate_expression (expr w))
    /\ display_bold w' = true
    /\ selected w' = selected w
    /\ forall x, widgets w' x = enabled_again w x.
Proof.
  revert k; induction n as [|n IH]; intros k w ms Hk Hnext Htimer; cbv zeta.
  - assert (Hlen : k = List.length messages) by lia.
    simpl run. unfold fire. rewrite Htimer.
    set (w0 := {| display_text := display_text w;
                  display_bold := display_bold w;
                  widgets := widgets w; entry_a_text := entry_a_text w;
                  entry_b_text := entry_b_text w; selected := selected w;
                  expr := expr w; state := state w; timer := None;
                  clock := clock w + ms; log := log w |}).
    assert (Hstep : step messages w0 = evaluate_and_show w0).
    { apply gui_step_exhausted. unfold exhausted, w0. simpl.
      destruct Hnext as [(Hp & Hi & _) | (Hp & Hi & _)]; rewrite Hp; simpl;
        apply Nat.leb_le; lia. }
    rewrite Hstep, Hlen, skipn_all. simpl messages_log.
    pose proof (evaluate_and_show_spec w0) as S0. cbv zeta in S0.
    destruct S0 as (L & T & C & D & B & Sel & W).
    rewrite L, T, C, D, B, Sel.
    split; [reflexivity|]. split; [reflexivity|].
    split; [simpl; lia|]. repeat (split; [reflexivity|]).
    intro x. rewrite W. reflexivity.
  - assert (Hlt : k < List.length messages) by lia.
    change (run messages (S (S n)) w)
      with (run messages (S n) (fire messages w)).
    set (w1 := fire messages w).
    assert (H1 : log w1 = log w ++ [Message (nth k messages "") (Nat.odd k);
                                    After 2000%Z]
                 /\ timer w1 = Some 2000%Z
                 /\ clock w1 = (clock w + ms)%Z
                 /\ expr w1 = expr w
                 /\ selected w1 = selected w
                 /\ widgets w1 = widgets w
                 /\ next_is (S k) (state w1)).
    { unfold w1, fire. rewrite Htimer. unfold step. simpl.
      destruct Hnext as [(Hp & Hi & Ho) | (Hp & Hi & Ho)]; rewrite Hp; simpl.
      - replace (i (state w) <? List.length messages)%nat with true
          by (symmetry; apply Nat.ltb_lt; lia).
        simpl. rewrite Hi, Ho. simpl. repeat rewrite <- app_assoc. simpl.
        repeat split; try reflexivity.
        right. simpl. repeat split; try lia.
        rewrite Nat.odd_succ, <- Nat.negb_odd, Ho. reflexivity.
      - replace (i (state w) + 1 <? List.length messages)%nat with true
          by (symmetry; apply Nat.ltb_lt; lia).
        simpl. replace (i (state w) + 1) with k by lia.
        rewrite Ho. simpl. repeat rewrite <- app_assoc. simpl.
        repeat split; try reflexivity.
        left. simpl. repeat split; try lia.
        rewrite Nat.odd_succ, <- Nat.negb_odd, Ho. reflexivity. }
    destruct H1 as (Hlog & Ht & Hc & He & Hs & Hw & Hn).
    pose proof (IH (S k) w1 2000%Z ltac:(lia) Hn Ht) as IHw1.
    cbv zeta in IHw1. destruct IHw1 as (L & T & C & D & B & Sel & W).
    rewrite (skipn_nth messages k Hlt). simpl messages_log.
    rewrite L, T, C, D, B, Sel, Hlog, Hc, He, Hs.
    assert (Hfl : finish_log w1 = finish_log w).
    { unfold finish_log, selected_log. rewrite He, Hs. reflexivity. }
    rewrite Hfl.
    split; [repeat rewrite <- app_assoc; reflexivity|].
    split; [reflexivity|]. split; [lia|].
    repeat (split; [reflexivity|]).
    intro x. rewrite W. unfold enabled_again. rewrite Hs, Hw. reflexivity.
Qed.

(** A whole reveal, from [start_sequence] to the result, when nothing
    else happens in between. *)
Lemma gui_reveal (w : world) (op : string) (btn : op_button) :
  selected w = Some (op, btn) ->
  valid_entries w = true ->
  let N := List.length messages in
  let e := built_expr op w in
  let w' := run messages (S N) (start_sequence w) in
  log w' = log w
           ++ [ Config btn_calc disabled; Config entry_a disabled;
                Config entry_b disabled; Config (op_btn btn) disabled;
                After 0%Z ]
           ++ messages_log 0 messages
           ++ [ Evaluate e; Result (final_text (evaluate_expression e)) true;
                Config btn_calc normal; Config entry_a normal;
                Config entry_b normal; Config (op_btn btn) normal ]
  /\ timer w' = None
  /\ clock w' = (clock w + 2000 * Z.of_nat N)%Z
  /\ display_text w' = final_text (evaluate_expression e)
  /\ display_bold w' = true
  /\ forall x, widgets w' x
               = match x with
                 | op_btn b => if op_button_eqb b btn then normal
                               else widgets w x
                 | _ => normal
                 end.
Proof.
  intros Hsel Hvalid. cbv zeta.
  pose proof (start_sequence_spec w op btn Hsel Hvalid) as S0.
  cbv zeta in S0. destruct S0 as (L0 & T0 & C0 & E0 & St0 & Sel0 & W0).
  pose proof (gui_run_from (List.length messages) 0 (start_sequence w) 0%Z
                eq_refl) as H.
  cbv zeta in H. destruct H as (L & T & C & D & B & Sel & W).
  - left. rewrite St0. simpl. auto.
  - exact T0.
  - rewrite L, T, C, D, B. unfold finish_log, selected_log.
    rewrite L0, C0, E0, Sel0. simpl skipn.
    split; [repeat rewrite <- app_assoc; reflexivity|].
    split; [reflexivity|]. split; [lia|].
    repeat (split; [reflexivity|]).
    intro x. rewrite W. unfold enabled_again. rewrite Sel0.
    destruct x as [ | | |b]; try reflexivity.
    rewrite W0. unfold disabled_by_start.
    destruct (op_button_eqb b btn); reflexivity.
Qed.

End Sequence.
End GuiFacts.

(** ** The parser: its budget and its errors *)

Module ParserFacts.

Lemma cmpop_of_shorter (ts : list token) (op : ast.cmpop) (r : list token) :
  cmpop_of ts = Some (op, r) -> List.length r < List.length ts.
Proof.
  unfold cmpop_of. intro H.
  repeat match type of H with
         | match ?x with _ => _ end = _ => destruct x; simpl in *
         | (if ?c then _ else _) = _ => destruct c
         end;
    try discriminate H; injection H as _ <-; simpl; lia.
Qed.

(** One step through the body of a parsing function that returned. *)
Ltac parser_step :=
  match goal with
  | H : Raise _ = Ok _ |- _ => discriminate H
  | H : Ok _ = Ok _ |- _ => injection H as ?; subst
  | H : bind _ _ = Ok _ |- _ =>
      apply bind_Ok in H; destruct H as (? & ? & H); cbv beta zeta in H
  | H : context [match ?x with _ => _ end] |- _ =>
      lazymatch x with
      | context [match _ with _ => _ end] => fail
      | _ => first [is_var x; destruct x | destruct x eqn:?]
      end
  end.

(** What a successful call leaves is shorter than what it was given. *)
Lemma parser_shorter (fuel : nat) :
  (forall min ts x r, expr fuel min ts = Ok (x, r) ->
     List.length r < List.length ts)
  /\ (forall min ts x r, prefix fuel min ts = Ok (x, r) ->
        List.length r < List.length ts)
  /\ (forall min lhs ts x r, tail fuel min lhs ts = Ok (x, r) ->
        List.length r <= List.length ts)
  /\ (forall ts l r, comparisons fuel ts = Ok (l, r) ->
        List.length r <= List.length ts)
  /\ (forall lvl ts l r, operands fuel lvl ts = Ok (l, r) ->
        List.length r <= List.length ts)
  /\ (forall ts x r, atom fuel ts = Ok (x, r) ->
        List.length r < List.length ts)
  /\ (forall a ts x r, trailers fuel a ts = Ok (x, r) ->
        List.length r <= List.length ts)
  /\ (forall ts es c r, expressions fuel ts = Ok (es, c, r) ->
        List.length r < List.length ts).
Proof.
  induction fuel as [|fuel IH].
  - repeat split; intros; discriminate.
  - destruct IH as (Hexpr & Hprefix & Htail & Hcmp & Hops & Hatom & Htrail
                    & Hexprs).
    repeat split; intros;
      match goal with
      | H : _ = Ok _ |- _ =>
          cbn [expr prefix tail comparisons operands atom trailers
                 expressions] in H
      end;
      repeat parser_step;
      repeat match goal with
        | H : expr _ _ _ = Ok _ |- _ => apply Hexpr in H
        | H : prefix _ _ _ = Ok _ |- _ => apply Hprefix in H
        | H : tail _ _ _ _ = Ok _ |- _ => apply Htail in H
        | H : comparisons _ _ = Ok _ |- _ => apply Hcmp in H
        | H : operands _ _ _ = Ok _ |- _ => apply Hops in H
        | H : atom _ _ = Ok _ |- _ => apply Hatom in H
        | H : trailers _ _ _ = Ok _ |- _ => apply Htrail in H
        | H : expressions _ _ = Ok _ |- _ => apply Hexprs in H
        | H : cmpop_of _ = Some _ |- _ => apply cmpop_of_shorter in H
        end;
      simpl in *; lia.
Qed.

(** One step through the body of a parsing function that ran out of
    budget. *)
Ltac exhausted_step :=
  match goal with
  | H : Raise SyntaxError = Raise RecursionError |- _ => discriminate H
  | H : Ok _ = Raise _ |- _ => discriminate H
  | H : bind _ _ = Raise RecursionError |- _ =>
      apply bind_Raise in H; destruct H as [H | (? & ? & H)];
      cbv beta zeta in H
  | H : context [match ?x with _ => _ end] |- _ =>
      lazymatch x with
      | context [match _ with _ => _ end] => fail
      | _ => first [is_var x; destruct x | destruct x eqn:?]
      end
  end.

(** With four levels per token a call never runs out of budget. *)
Lemma parser_budget (fuel : nat) :
  (forall min ts, 4 * List.length ts + 4 <= fuel ->
     expr fuel min ts <> Raise RecursionError)
  /\ (forall min ts, 4 * List.length ts + 3 <= fuel ->
        prefix fuel min ts <> Raise RecursionError)
  /\ (forall min lhs ts, 4 * List.length ts + 1 <= fuel ->
        tail fuel min lhs ts <> Raise RecursionError)
  /\ (forall ts, 4 * List.length ts + 1 <= fuel ->
        comparisons fuel ts <> Raise RecursionError)
  /\ (forall lvl ts, 4 * List.length ts + 1 <= fuel ->
        operands fuel lvl ts <> Raise RecursionError)
  /\ (forall ts, 4 * List.length ts + 2 <= fuel ->
        atom fuel ts <> Raise RecursionError)
  /\ (forall a ts, 4 * List.length ts + 2 <= fuel ->
        trailers fuel a ts <> Raise RecursionError)
  /\ (forall ts, 4 * List.length ts + 5 <= fuel ->
        expressions fuel ts <> Raise RecursionError).
Proof.
  induction fuel as [|fuel IH].
  - repeat split; intros; lia.
  - destruct IH as (Hexpr & Hprefix & Htail & Hcmp & Hops & Hatom & Htrail
                    & Hexprs).
    destruct (parser_shorter fuel)
      as (Sexpr & Sprefix & Stail & Scmp & Sops & Satom & Strail & Sexprs).
    repeat split; intros;
      match goal with
      | |- _ <> _ => intro Hrec
      end;
      cbn [expr prefix tail comparisons operands atom trailers
             expressions] in Hrec;
      repeat exhausted_step;
      repeat match goal with
        | H : expr _ _ _ = Ok _ |- _ => apply Sexpr in H
        | H : prefix _ _ _ = Ok _ |- _ => apply Sprefix in H
        | H : tail _ _ _ _ = Ok _ |- _ => apply Stail in H
        | H : comparisons _ _ = Ok _ |- _ => apply Scmp in H
        | H : operands _ _ _ = Ok _ |- _ => apply Sops in H
        | H : atom _ _ = Ok _ |- _ => apply Satom in H
        | H : trailers _ _ _ = Ok _ |- _ => apply Strail in H
        | H : expressions _ _ = Ok _ |- _ => apply Sexprs in H
        | H : cmpop_of _ = Some _ |- _ => apply cmpop_of_shorter in H
        end;
      match goal with
      | H : expr _ _ _ = Raise _ |- _ => apply Hexpr in H
      | H : prefix _ _ _ = Raise _ |- _ => apply Hprefix in H
      | H : tail _ _ _ _ = Raise _ |- _ => apply Htail in H
      | H : comparisons _ _ = Raise _ |- _ => apply Hcmp in H
      | H : operands _ _ _ = Raise _ |- _ => apply Hops in H
      | H : atom _ _ = Raise _ |- _ => apply Hatom in H
      | H : trailers _ _ _ = Raise _ |- _ => apply Htrail in H
      | H : expressions _ _ = Raise _ |- _ => apply Hexprs in H
      end;
      solve [assumption | simpl in *; lia].
Qed.

(** [ast_parse] never reports [RecursionError]. *)
Lemma eval_input_budget (ts : list token) :
  eval_input ts <> Raise RecursionError.
Proof.
  unfold eval_input. intro H.
  apply bind_Raise in H. destruct H as [H | (((es & comma) & r) & _ & H)].
  - destruct (parser_budget (8 * List.length ts + 8))
      as (_ & _ & _ & _ & _ & _ & _ & Hexprs).
    apply (Hexprs ts); [lia | exact H].
  - cbv beta zeta in H. destruct (at_end r); [|discriminate H].
    destruct es as [|e [|e' es]]; destruct comma; discriminate H.
Qed.

(** One step through the body of a function that raised. *)
Ltac raised_step :=
  match goal with
  | H : Raise _ = Raise _ |- _ => injection H as <-
  | H : Ok _ = Raise _ |- _ => discriminate H
  | H : bind _ _ = Raise _ |- _ =>
      apply bind_Raise in H; destruct H as [H | (? & ? & H)];
      cbv beta zeta in H
  | H : context [match ?x with _ => _ end] |- _ =>
      lazymatch x with
      | context [match _ with _ => _ end] => fail
      | _ => first [is_var x; destruct x | destruct x eqn:?]
      end
  end.

(** The parsing functions raise nothing but a syntax error or the
    exhaustion of their budget. *)
Lemma parser_raises_syntax (fuel : nat) :
  (forall min ts e, expr fuel min ts = Raise e -> (e = SyntaxError \/ e = RecursionError))
  /\ (forall min ts e, prefix fuel min ts = Raise e -> (e = SyntaxError \/ e = RecursionError))
  /\ (forall min lhs ts e, tail fuel min lhs ts = Raise e -> (e = SyntaxError \/ e = RecursionError))
  /\ (forall ts e, comparisons fuel ts = Raise e -> (e = SyntaxError \/ e = RecursionError))
  /\ (forall lvl ts e, operands fuel lvl ts = Raise e -> (e = SyntaxError \/ e = RecursionError))
  /\ (forall ts e, atom fuel ts = Raise e -> (e = SyntaxError \/ e = RecursionError))
  /\ (forall a ts e, trailers fuel a ts = Raise e -> (e = SyntaxError \/ e = RecursionError))
  /\ (forall ts e, expressions fuel ts = Raise e -> (e = SyntaxError \/ e = RecursionError)).
Proof.
  induction fuel as [|fuel IH].
  - repeat split; intros;
      match goal with H : _ = Raise _ |- _ => injection H as <- end;
      right; reflexivity.
  - destruct IH as (Hexpr & Hprefix & Htail & Hcmp & Hops & Hatom & Htrail
                    & Hexprs).
    repeat split; intros;
      match goal with
      | H : _ = Raise _ |- _ =>
          cbn [expr prefix tail comparisons operands atom trailers
                 expressions] in H
      end;
      repeat raised_step;
      try (left; reflexivity);
      match goal with
      | H : expr _ _ _ = Raise _ |- _ => exact (Hexpr _ _ _ H)
      | H : prefix _ _ _ = Raise _ |- _ => exact (Hprefix _ _ _ H)
      | H : tail _ _ _ _ = Raise _ |- _ => exact (Htail _ _ _ _ H)
      | H : comparisons _ _ = Raise _ |- _ => exact (Hcmp _ _ H)
      | H : operands _ _ _ = Raise _ |- _ => exact (Hops _ _ _ H)
      | H : atom _ _ = Raise _ |- _ => exact (Hatom _ _ H)
      | H : trailers _ _ _ = Raise _ |- _ => exact (Htrail _ _ _ H)
      | H : expressions _ _ = Raise _ |- _ => exact (Hexprs _ _ H)
      end.
Qed.

Lemma tokens_from_raises_syntax (cs : list ascii) :
  forall skip depth bol e,
    tokens_from skip depth bol cs = Raise e -> e = SyntaxError.
Proof.
  induction cs as [|c cs IH]; intros skip depth bol e H.
  - discriminate H.
  - cbn [tokens_from] in H.
    repeat raised_step; try reflexivity;
      match goal with
      | H : tokens_from _ _ _ _ = Raise _ |- _ => exact (IH _ _ _ _ H)
      end.
Qed.

(** Whatever [ast_parse] refuses, it refuses as a syntax error. *)
Lemma ast_parse_raises_syntax (source : string) (e : exn) :
  ast_parse source = Raise e -> e = SyntaxError.
Proof.
  unfold ast_parse. intro H.
  apply bind_Raise in H. destruct H as [H | (ts & _ & H)].
  - exact (tokens_from_raises_syntax _ _ _ _ _ H).
  - cbv beta in H.
    assert (Hb := eval_input_budget ts).
    unfold eval_input in H, Hb.
    apply bind_Raise in H. destruct H as [H | (((es & comma) & r) & Hes & H)].
    + destruct (parser_raises_syntax (8 * List.length ts + 8))
        as (_ & _ & _ & _ & _ & _ & _ & Hexprs).
      destruct (Hexprs ts e H) as [-> | ->]; [reflexivity|].
      rewrite H in Hb. exfalso. apply Hb. reflexivity.
    + cbv beta zeta in H. destruct (at_end r).
      * destruct es as [|e0 [|e1 es]]; destruct comma; discriminate H.
      * injection H as <-. reflexivity.
Qed.
End ParserFacts.

(** ** The tokenizer: the start of a line

    One difference from CPython is known at the very end of a text: a
    last line made of blanks only, with no newline after it, counts here
    as a blank line, where CPython reports an unexpected indent.  The
    statements below are not affected: where they cover such a text, they
    conclude with a syntax error, which the indentation error is. *)

Module TokenizerFacts.

Lemma list_ascii_of_string_app (a b : string) :
  list_ascii_of_string (a ++ b)%string
  = list_ascii_of_string a ++ list_ascii_of_string b.
Proof.
  induction a as [|c a IH]; [reflexivity|].
  simpl. rewrite IH. reflexivity.
Qed.

Lemma visible_spec (c : ascii) :
  visible c = true ->
  (c =? " ")%char = false /\ (c =? tab)%char = false
  /\ (c =? formfeed)%char = false /\ (c =? newline)%char = false
  /\ (c =? carriage_return)%char = false /\ (c =? "#")%char = false.
Proof.
  unfold visible. intro H.
  apply andb_true_iff in H. destruct H as [Hs Hc].
  apply negb_true_iff in Hs. apply negb_true_iff in Hc.
  assert (E : forall d, is_space d = true -> (c =? d)%char = false).
  { intros d Hd. apply Ascii.eqb_neq. intros ->. congruence. }
  repeat split; try (apply E; reflexivity). exact Hc.
Qed.





(** ** The tokenizer: a text of white space *)

Lemma lstrip_nil (cs : list ascii) :
  lstrip cs = [] -> Forall (fun c => is_space c = true) cs.
Proof.
  induction cs as [|c cs IH]; intro H; [constructor|].
  cbn [lstrip] in H. destruct (is_space c) eqn:E; [|discriminate H].
  constructor; [exact E|exact (IH H)].
Qed.

Lemma lstrip_head (cs : list ascii) (c : ascii) (r : list ascii) :
  lstrip cs = c :: r -> is_space c = false.
Proof.
  induction cs as [|a cs IH]; intro H; [discriminate H|].
  cbn [lstrip] in H. destruct (is_space a) eqn:E; [exact (IH H)|].
  injection H as <- _. exact E.
Qed.

(** A text that [strip] empties is made of white space. *)
Lemma strip_empty (s : string) :
  strip s = "" ->
  Forall (fun c => is_space c = true) (list_ascii_of_string s).
Proof.
  unfold strip. intro H.
  apply lstrip_nil.
  destruct (lstrip (list_ascii_of_string s)) as [|c r] eqn:E; [reflexivity|].
  exfalso.
  pose proof (lstrip_head _ _ _ E) as Hc.
  assert (R : rev (lstrip (rev (c :: r))) = []).
  { destruct (rev (lstrip (rev (c :: r)))); [reflexivity|discriminate H]. }
  apply (f_equal (@rev ascii)) in R. rewrite rev_involutive in R.
  cbn [rev] in R. apply lstrip_nil in R.
  apply Forall_app in R. destruct R as (_ & R).
  inversion R as [|? ? Hc' _]; subst. congruence.
Qed.

Lemma translate_newlines_space (cs : list ascii) :
  Forall (fun c => is_space c = true) cs ->
  Forall (fun c => is_space c = true) (translate_newlines cs).
Proof.
  induction cs as [cs IH] using (induction_ltof1 _ (@List.length ascii)).
  unfold ltof in IH. intro H.
  destruct cs as [|c cs']; [constructor|].
  inversion H as [|? ? Hc H']; subst.
  cbn [translate_newlines].
  destruct (c =? carriage_return)%char.
  - destruct cs' as [|c2 cs'']; [repeat constructor|].
    inversion H' as [|? ? Hc2 H'']; subst.
    destruct (c2 =? newline)%char;
      (constructor; [reflexivity|apply IH; [simpl; lia|assumption]]).
  - constructor; [exact Hc|]. apply IH; [simpl; lia|assumption].
Qed.

(** White space gives no token but [NEWLINE] and the end marker. *)
Lemma tokens_from_space_only (cs : list ascii) :
  Forall (fun c => is_space c = true) cs ->
  forall (skip depth : nat) (bol : bool),
    match tokens_from skip depth bol cs with
    | Ok ts => at_end ts = true
    | Raise _ => True
    end.
Proof.
  induction 1 as [|c cs' Hc Hcs IH]; intros skip depth bol; [reflexivity|].
  destruct skip as [|k]; [|exact (IH k depth bol)].
  destruct c as [[] [] [] [] [] [] [] []]; try discriminate Hc;
    match goal with
    | |- context [tokens_from 0 depth bol (?c :: cs')] =>
        assert (Hst : scan_token c cs' = None) by reflexivity
    end;
    cbn [tokens_from indentation]; rewrite ?Hst;
    repeat match goal with
           | |- context [(?a =? ?b)%char] =>
               let v := eval vm_compute in (a =? b)%char in
               lazymatch v with
               | true => change (a =? b)%char with true
               | false => change (a =? b)%char with false
               end
           end;
    cbv iota;
    repeat match goal with
           | |- True => exact I
           | |- match tokens_from ?a ?b ?c cs' with _ => _ end =>
               exact (IH a b c)
           | |- match bind (tokens_from ?a ?b ?c cs') _ with _ => _ end =>
               let H := fresh in
               pose proof (IH a b c) as H;
               destruct (tokens_from a b c cs'); cbn [bind at_end];
               [exact H|exact I]
           | |- context [match ?x with _ => _ end] =>
               lazymatch x with
               | context [match _ with _ => _ end] => fail
               | tokens_from _ _ _ _ => fail
               | bind _ _ => fail
               | _ => destruct x eqn:?
               end
           | |- context [if ?x then _ else _] =>
               lazymatch x with
               | context [if _ then _ else _] => fail
               | _ => destruct x eqn:?
               end
           end.
Qed.

(** The parser refuses a text of white space, the empty text included. *)
Lemma blank_text_is_refused (s : string) :
  strip s = "" -> ast_parse s = Raise SyntaxError.
Proof.
  intro H.
  pose proof (tokens_from_space_only _
                (translate_newlines_space _ (strip_empty s H)) 0 0 true) as T.
  destruct (ast_parse s) as [tree|e] eqn:E.
  - exfalso. unfold ast_parse, tokenize in E.
    destruct (tokens_from 0 0 true
                (translate_newlines (list_ascii_of_string s))) as [ts|e];
      [|discriminate E].
    cbn [bind] in E. unfold eval_input in E.
    assert (X : forall fuel, exists e,
                expressions fuel ts = Raise e).
    { intro fuel.
      destruct fuel as [|fuel]; [exists RecursionError; reflexivity|].
      destruct fuel as [|fuel]; [exists RecursionError; reflexivity|].
      destruct fuel as [|fuel]; [exists RecursionError; reflexivity|].
      destruct ts as [|t ts']; [discriminate T|].
      destruct fuel as [|fuel];
        destruct t; try discriminate T;
        first [exists RecursionError; reflexivity
              | exists SyntaxError; reflexivity]. }
    destruct (X (8 * List.length ts + 8)) as (e & Xe).
    rewrite Xe in E. discriminate E.
  - rewrite (ParserFacts.ast_parse_raises_syntax s e E). reflexivity.
Qed.

End TokenizerFacts.

(** ** [main] *)

Module CliFacts.
Import Cli.

Section Facts.
Context {rt : CRuntime}.
Variable messages : list string.

(** The handler [except ValueError] of [main] catches whatever
    [evaluate_expression] raises, and what it prints is the text the two
    windows display. *)
Lemma evaluate_and_print_spec (expr : string) :
  evaluate_and_print expr
  = ([Print (final_text (evaluate_expression expr))], Ok tt).
Proof.
  unfold evaluate_and_print, final_text.
  destruct (evaluate_expression expr) as [v|e] eqn:E.
  - destruct (equals_five v); reflexivity.
  - destruct (EvaluatorFacts.evaluate_raises expr e E) as (cause & ->).
    reflexivity.
Qed.

Lemma print_and_evaluate_spec (before : list event) (expr : string) :
  print_and_evaluate messages before expr
  = (before ++ print_messages messages
     ++ [Print (final_text (evaluate_expression expr))], Ok tt).
Proof.
  unfold print_and_evaluate. rewrite evaluate_and_print_spec. reflexivity.
Qed.







End Facts.
End CliFacts.

(** ** The keypad sequence while its messages are shown *)

Module RevealFacts.
Import Keypad.

Section Facts.
Context {rt : CRuntime}.
Variable messages : list string.
Variable expr : string.

(** A callback that has a message to show shows it and registers itself
    again; the buttons stay as they are. *)
Lemma keypad_fire_shows (k : nat) (w : world) (ms : Z) :
  k < List.length messages ->
  next_is k (state w) ->
  timer w = Some ms ->
  let w1 := fire messages expr w in
  buttons w1 = buttons w
  /\ timer w1 = Some 2000%Z
  /\ disp_var w1 = Literal (nth k messages "")
  /\ next_is (S k) (state w1).
Proof.
  intros Hlt Hnext Htimer. cbv zeta.
  unfold fire. rewrite Htimer. unfold step. simpl.
  destruct Hnext as [(Hp & Hi & Ho) | (Hp & Hi & Ho)]; rewrite Hp; simpl.
  - replace (i (state w) <? List.length messages)%nat with true
      by (symmetry; apply Nat.ltb_lt; lia).
    simpl. rewrite Hi. repeat split; try reflexivity.
    right. simpl. repeat split; try lia.
    rewrite Nat.odd_succ, <- Nat.negb_odd, Ho. reflexivity.
  - replace (i (state w) + 1 <? List.length messages)%nat with true
      by (symmetry; apply Nat.ltb_lt; lia).
    simpl. replace (i (state w) + 1) with k by lia.
    repeat split; try reflexivity.
    left. simpl. repeat split; try lia.
    rewrite Nat.odd_succ, <- Nat.negb_odd, Ho. reflexivity.
Qed.

Lemma keypad_run_shows (m : nat) :
  forall (k : nat) (w : world) (ms : Z),
    k + m <= List.length messages ->
    next_is k (state w) ->
    timer w = Some ms ->
    let w' := run messages expr m w in
    buttons w' = buttons w
    /\ (exists ms', timer w' = Some ms')
    /\ next_is (k + m) (state w')
    /\ (0 < m -> disp_var w' = Literal (nth (k + m - 1) messages "")).
Proof.
  induction m as [|m IH]; intros k w ms Hk Hnext Htimer; cbv zeta.
  - rewrite Nat.add_0_r. simpl.
    split; [reflexivity|]. split; [exists ms; exact Htimer|].
    split; [exact Hnext|]. intro H. inversion H.
  - destruct (keypad_fire_shows k w ms ltac:(lia) Hnext Htimer)
      as (Hb & Ht & Hd & Hn).
    cbv zeta in Hb, Ht, Hd, Hn.
    pose proof (IH (S k) (fire messages expr w) 2000%Z ltac:(lia) Hn Ht)
      as IH1.
    cbv zeta in IH1. destruct IH1 as (B & T & S' & D).
    change (run messages expr (S m) w)
      with (run messages expr m (fire messages expr w)).
    replace (k + S m) with (S k + m) by lia.
    split; [congruence|]. split; [exact T|]. split; [exact S'|].
    intros _. destruct m as [|m].
    + simpl. rewrite Hd. f_equal. f_equal. lia.
    + apply D. lia.
Qed.

(** After [j] callbacks of a reveal of [N] messages, [1 <= j <= N]: the
    [j]-th message is on display and the buttons are still disabled. *)
Lemma keypad_reveal_shows (j : nat) (w : world) :
  j <= List.length messages ->
  let w' := run messages expr j (run_sequence_then_eval w) in
  buttons w' = map (fun _ => disabled) (buttons w)
  /\ (exists ms', timer w' = Some ms')
  /\ (0 < j -> disp_var w' = Literal (nth (j - 1) messages "")).
Proof.
  intro Hj. cbv zeta.
  pose proof (keypad_run_shows j 0 (run_sequence_then_eval w) 0%Z
                ltac:(simpl; lia)) as H.
  cbv zeta in H. destruct H as (B & T & _ & D).
  - left. simpl. auto.
  - reflexivity.
  - split; [rewrite B; reflexivity|]. split; [exact T|exact D].
Qed.

End Facts.
End RevealFacts.

(** ** The keypad window *)

Module WindowFacts.
Import Window.

Lemma string_length_app (s t : string) :
  String.length (s ++ t) = String.length s + String.length t.
Proof.
  induction s as [|a s IH]; [reflexivity|]. simpl. rewrite IH. reflexivity.
Qed.

Lemma substring_prefix (s t : string) :
  substring 0 (String.length s) (s ++ t) = s.
Proof.
  induction s as [|a s IH]; simpl.
  - destruct t; reflexivity.
  - rewrite IH. reflexivity.
Qed.

Lemma all_but_last_app (s : string) (c : ascii) :
  all_but_last (s ++ String c "") = s.
Proof.
  unfold all_but_last. rewrite string_length_app. simpl String.length.
  replace (String.length s + 1 - 1) with (String.length s) by lia.
  apply substring_prefix.
Qed.

Lemma nth_error_update (l : list (string * Keypad.seq_state)) (id : nat)
  (c c0 : string * Keypad.seq_state) :
  nth_error l id = Some c0 -> nth_error (update id c l) id = Some c.
Proof.
  intro H. unfold update.
  assert (Hlen : id < List.length l)
    by (apply nth_error_Some; congruence).
  assert (F : List.length (firstn id l) = id)
    by (apply firstn_length_le; lia).
  rewrite nth_error_app2 by lia.
  rewrite F, Nat.sub_diag. reflexivity.
Qed.

Lemma length_update (l : list (string * Keypad.seq_state)) (id : nat)
  (c c0 : string * Keypad.seq_state) :
  nth_error l id = Some c0 -> List.length (update id c l) = List.length l.
Proof.
  intro H. unfold update.
  assert (Hlen : id < List.length l)
    by (apply nth_error_Some; congruence).
  rewrite length_app. cbn [List.length].
  rewrite firstn_length_le, length_skipn by lia. lia.
Qed.

Section Facts.
Context {rt : CRuntime} {fmt : Formatter}.
Variable messages : list string.

Lemma get_set (s : string) (w : world) : get (set s w) = s.
Proof. reflexivity. Qed.

(** One turn of the event loop is one turn of the sequencer. *)
Lemma fire_reveals (id : nat) (expr : string) (k : Keypad.world) (w : world) :
  reveals id expr k w ->
  reveals id expr (Keypad.fire messages expr k) (fire messages w)
  /\ memory (fire messages w) = memory w
  /\ List.length (closures (fire messages w)) = List.length (closures w).
Proof.
  intros (Hk & Hc & Hp).
  unfold fire, Keypad.fire. rewrite Hp.
  destruct (Keypad.timer k) as [ms|] eqn:Ht.
  - cbv zeta. unfold step. cbn [closures set_pending set_keypad].
    rewrite Hc. cbv zeta.
    cbn [keypad set_pending set_keypad].
    rewrite Hk.
    change (with_state (Keypad.state k)
              (with_clock (Keypad.clock k + ms)
                 (with_state (Keypad.state k) k)))
      with {| Keypad.disp_var := Keypad.disp_var k;
              Keypad.buttons := Keypad.buttons k;
              Keypad.state := Keypad.state k; Keypad.timer := None;
              Keypad.clock := (Keypad.clock k + ms)%Z;
              Keypad.log := Keypad.log k |}.
    set (k' := Keypad.step messages expr _).
    unfold collect, reveals.
    destruct (Keypad.timer k') as [ms'|] eqn:Ht';
      cbn [after keypad closures pending memory set_pending set_keypad
           set_closures enqueue with_state Keypad.clock Keypad.state];
      (split; [split; [reflexivity|split;
         [exact (nth_error_update _ _ _ _ Hc)|reflexivity]]|]);
      (split; [reflexivity|]);
      exact (length_update _ _ _ _ Hc).
  - split; [split; [exact Hk|split; [exact Hc|rewrite Ht; exact Hp]]|].
    split; reflexivity.
Qed.

Lemma run_reveals (n : nat) :
  forall (id : nat) (expr : string) (k : Keypad.world) (w : world),
    reveals id expr k w ->
    reveals id expr (Keypad.run messages expr n k) (run messages n w)
    /\ memory (run messages n w) = memory w
    /\ List.length (closures (run messages n w)) = List.length (closures w).
Proof.
  induction n as [|n IH]; intros id expr k w H.
  - split; [exact H|]. split; reflexivity.
  - destruct (fire_reveals id expr k w H) as (H1 & M1 & L1).
    destruct (IH id expr _ _ H1) as (H2 & M2 & L2).
    cbn [run Keypad.run].
    split; [exact H2|]. split; congruence.
Qed.

(** [run_sequence_then_eval] in a window where nothing waits. *)
Lemma run_sequence_then_eval_reveals (expr : string) (w : world) :
  pending w = [] ->
  reveals (List.length (closures w)) expr
    (Keypad.run_sequence_then_eval (keypad w))
    (run_sequence_then_eval expr w).
Proof.
  intro Hp. unfold run_sequence_then_eval, collect, reveals.
  cbn [Keypad.run_sequence_then_eval Keypad.after Keypad.emit Keypad.timer
       after keypad closures pending set_pending set_keypad set_closures
       Keypad.clock Keypad.state with_state Keypad.set_state
       Keypad.set_buttons].
  rewrite Hp. cbn [enqueue].
  split; [reflexivity|]. split; [|reflexivity].
  rewrite nth_error_app2 by lia. rewrite Nat.sub_diag. reflexivity.
Qed.


End Facts.
End WindowFacts.

(** ** Numerals: how the tokenizer and the parser read them *)

Module NumeralFacts.

Ltac digit_cases d H :=
  let E := fresh "E" in
  assert (E : (d = 0 \/ d = 1 \/ d = 2 \/ d = 3 \/ d = 4 \/ d = 5 \/ d = 6
               \/ d = 7 \/ d = 8 \/ d = 9)%Z) by lia;
  clear H;
  destruct E as [E|[E|[E|[E|[E|[E|[E|[E|[E|E]]]]]]]]]; subst d.

Lemma digit_char_spec (d : Z) :
  (0 <= d <= 9)%Z ->
  digit_in 10 (digit_char d) = Some d
  /\ is_digit (digit_char d) = true
  /\ is_space (digit_char d) = false
  /\ visible (digit_char d) = true
  /\ (digit_char d =? carriage_return)%char = false
  /\ (digit_char d =? backslash)%char = false
  /\ (forall x, In x (list_ascii_of_string "xXoObB") ->
        (digit_char d =? x)%char = false)
  /\ ((digit_char d =? "0")%char = true <-> d = 0%Z)
  /\ (digit_char d =? "*")%char = false
  /\ (digit_char d =? "/")%char = false
  /\ ends_numeral [digit_char d] = false.
Proof.
  intro H. digit_cases d H;
    (repeat split; try reflexivity; try discriminate;
     try (intros x Hx; simpl in Hx;
          repeat (destruct Hx as [<-|Hx]; [reflexivity|]);
          contradiction)).
Qed.

(** What [ends_numeral] tells about the character. *)
Lemma delimiter_spec (c : ascii) :
  negb (is_name_char c) && negb (c =? ".")%char = true ->
  digit_in 10 c = None
  /\ (c =? "_")%char = false /\ (c =? ".")%char = false
  /\ (c =? "e")%char = false /\ (c =? "E")%char = false
  /\ (c =? "j")%char = false /\ (c =? "J")%char = false
  /\ is_name_char c = false
  /\ (forall x, In x (list_ascii_of_string "xXoObB") -> (c =? x)%char = false).
Proof.
  destruct c as [[] [] [] [] [] [] [] []]; intro H;
    try discriminate H;
    (repeat split; try reflexivity;
     intros x Hx; simpl in Hx;
     repeat (destruct Hx as [<-|Hx]; [reflexivity|]); contradiction).
Qed.

Lemma skipn_app_length {A : Type} (l r : list A) (n : nat) :
  n = List.length l -> skipn n (l ++ r) = r.
Proof.
  intros ->. induction l as [|a l IH]; [reflexivity|]. exact IH.
Qed.

Lemma digits_tail_numeral (ds : list Z) (rest : list ascii) :
  Forall (fun d => (0 <= d <= 9)%Z) ds ->
  ends_numeral rest = true ->
  digits_tail 10 (map digit_char ds ++ rest) = (ds, List.length ds, true).
Proof.
  intros Hdigits Hrest.
  induction Hdigits as [|d ds' Hd Hds IH].
  - simpl. destruct rest as [|c r]; [reflexivity|].
    simpl in Hrest. apply delimiter_spec in Hrest.
    destruct Hrest as (Hdi & Hu & _).
    cbn [digits_tail]. rewrite Hdi, Hu. reflexivity.
  - cbn [map app digits_tail].
    destruct (digit_char_spec d Hd) as (Hdi & _).
    rewrite Hdi, IH. reflexivity.
Qed.

Lemma digitpart_numeral (ds : list Z) (rest : list ascii) :
  is_digits ds ->
  ends_numeral rest = true ->
  digitpart 10 (map digit_char ds ++ rest) = (ds, List.length ds, true).
Proof.
  intros (Hne & Hdigits) Hrest.
  destruct ds as [|d ds']; [contradiction|].
  inversion Hdigits as [|? ? Hd Hds]; subst.
  cbn [map app digitpart].
  destruct (digit_char_spec d Hd) as (Hdi & _).
  rewrite Hdi, (digits_tail_numeral ds' rest Hds Hrest). reflexivity.
Qed.

Lemma leading_zero_false (ds : list Z) :
  no_leading_zero ds ->
  match ds with
  | d :: _ => (d =? 0)%Z && negb (number_of_digits 10 ds =? 0)%Z
  | [] => false
  end = false.
Proof.
  destruct ds as [|d ds']; [reflexivity|].
  intros [H|H].
  - apply Z.eqb_neq in H. rewrite H. reflexivity.
  - rewrite H. apply andb_false_r.
Qed.

(** A numeral is read as the integer it denotes. *)
Lemma scan_decimal_numeral (ds : list Z) (rest : list ascii) :
  is_digits ds ->
  no_leading_zero ds ->
  ends_numeral rest = true ->
  scan_decimal (map digit_char ds ++ rest)
  = Some (ast.Int (number_of_digits 10 ds), List.length ds).
Proof.
  intros Hd Hz Hrest. unfold scan_decimal.
  rewrite (digitpart_numeral ds rest Hd Hrest).
  rewrite (skipn_app_length (map digit_char ds) rest)
    by (rewrite length_map; reflexivity).
  assert (Hlen : (List.length ds + List.length (@nil Z) =? 0)%nat = false).
  { destruct Hd as (Hne & _). destruct ds; [contradiction|reflexivity]. }
  pose proof (leading_zero_false ds Hz) as Hlz.
  destruct rest as [|c r].
  - cbn [scan_exponent skipn andb negb ends_cleanly].
    rewrite app_nil_r, Hlen, Hlz. cbn [negb].
    repeat f_equal. lia.
  - simpl in Hrest. apply delimiter_spec in Hrest.
    destruct Hrest as (_ & _ & Hdot & He & HE & Hj & HJ & Hn & _).
    rewrite Hdot. cbn [skipn scan_exponent].
    rewrite He, HE. cbn [orb skipn]. rewrite Hj, HJ.
    cbn [orb skipn ends_cleanly andb negb]. rewrite Hn.
    cbn [negb]. rewrite app_nil_r, Hlen, Hlz.
    repeat f_equal. lia.
Qed.

(** A numeral that starts with a zero and is not zero is refused. *)
Lemma scan_decimal_leading_zero (ds : list Z) (rest : list ascii) :
  is_digits (0%Z :: ds) ->
  number_of_digits 10 (0%Z :: ds) <> 0%Z ->
  ends_numeral rest = true ->
  scan_decimal (map digit_char (0%Z :: ds) ++ rest) = None.
Proof.
  intros Hd Hz Hrest. unfold scan_decimal.
  rewrite (digitpart_numeral (0%Z :: ds) rest Hd Hrest).
  rewrite (skipn_app_length (map digit_char (0%Z :: ds)) rest)
    by (rewrite length_map; reflexivity).
  apply Z.eqb_neq in Hz.
  destruct rest as [|c r].
  - cbn [scan_exponent skipn andb negb ends_cleanly].
    rewrite app_nil_r, Hz. reflexivity.
  - simpl in Hrest. apply delimiter_spec in Hrest.
    destruct Hrest as (_ & _ & Hdot & He & HE & Hj & HJ & Hn & _).
    rewrite Hdot. cbn [skipn scan_exponent].
    rewrite He, HE. cbn [orb skipn]. rewrite Hj, HJ.
    cbn [orb skipn ends_cleanly andb negb]. rewrite Hn.
    cbn [negb]. rewrite app_nil_r, Hz. reflexivity.
Qed.

Lemma scan_number_numeral (ds : list Z) (rest : list ascii) :
  is_digits ds ->
  ends_numeral rest = true ->
  scan_number (map digit_char ds ++ rest)
  = scan_decimal (map digit_char ds ++ rest).
Proof.
  intros (Hne & Hd) Hrest.
  destruct ds as [|d ds']; [contradiction|].
  inversion Hd as [|? ? Hd1 Hds]; subst.
  cbn [map app].
  assert (X : forall x r, map digit_char ds' ++ rest = x :: r ->
              forall y, In y (list_ascii_of_string "xXoObB") ->
                (x =? y)%char = false).
  { intros x r E. destruct ds' as [|d2 ds''].
    - simpl in E. subst rest. simpl in Hrest.
      apply delimiter_spec in Hrest. apply Hrest.
    - inversion Hds as [|? ? Hd2 _]; subst.
      cbn [map app] in E. injection E as <- _.
      apply (digit_char_spec d2 Hd2). }
  destruct (map digit_char ds' ++ rest) as [|x r] eqn:E; [reflexivity|].
  unfold scan_number.
  destruct (digit_char d =? "0")%char; [|reflexivity].
  rewrite !(X x r eq_refl) by (simpl; tauto).
  reflexivity.
Qed.

Lemma tokens_from_skip (l rest : list ascii) (depth : nat) (bol : bool) :
  tokens_from (List.length l) depth bol (l ++ rest)
  = tokens_from 0 depth bol rest.
Proof.
  induction l as [|a l IH]; [reflexivity|].
  cbn [List.length app tokens_from]. exact IH.
Qed.

(** A digit starts a number, also at the start of a line. *)
Lemma tokens_from_digit (d : Z) (cs : list ascii) (depth : nat) (bol : bool) :
  (0 <= d <= 9)%Z ->
  tokens_from 0 depth bol (digit_char d :: cs)
  = match scan_number (digit_char d :: cs) with
    | Some (k, n) =>
        ts <- tokens_from (Nat.pred n) depth false cs ;; Ok (NUMBER k :: ts)
    | None => Raise SyntaxError
    end.
Proof.
  intro Hd1.
  destruct (digit_char_spec d Hd1) as (_ & Hdig & _ & Hvis & _ & Hbs & _).
  destruct (TokenizerFacts.visible_spec _ Hvis)
    as (Hsp & Htab & Hff & Hnl & _ & Hhash).
  cbn [tokens_from indentation].
  rewrite Hsp, Htab, Hff. cbn [nth_error]. rewrite Hnl, Hhash.
  cbn [orb]. rewrite andb_false_r. cbn [Nat.eqb negb].
  rewrite andb_false_r, Hbs.
  unfold scan_token. rewrite Hdig. cbn [orb].
  destruct (scan_number (digit_char d :: cs)) as [[k n]|]; reflexivity.
Qed.

(** A numeral in the text gives one [NUMBER] token. *)
Lemma tokens_from_numeral (ds : list Z) (rest : list ascii)
  (depth : nat) (bol : bool) :
  is_digits ds ->
  no_leading_zero ds ->
  ends_numeral rest = true ->
  tokens_from 0 depth bol (map digit_char ds ++ rest)
  = (ts <- tokens_from 0 depth false rest ;;
     Ok (NUMBER (ast.Int (number_of_digits 10 ds)) :: ts)).
Proof.
  intros Hd Hz Hrest.
  pose proof (scan_number_numeral ds rest Hd Hrest) as Hn.
  rewrite (scan_decimal_numeral ds rest Hd Hz Hrest) in Hn.
  destruct Hd as (Hne & Hds).
  destruct ds as [|d ds']; [contradiction|].
  inversion Hds as [|? ? Hd1 Hds']; subst.
  cbn [map app] in *.
  rewrite (tokens_from_digit d _ depth bol Hd1), Hn.
  cbn [List.length Nat.pred].
  rewrite <- (length_map digit_char ds').
  rewrite tokens_from_skip. reflexivity.
Qed.

(** A numeral with a zero in front is a syntax error. *)
Lemma tokens_from_leading_zero (ds : list Z) (rest : list ascii)
  (depth : nat) (bol : bool) :
  is_digits (0%Z :: ds) ->
  number_of_digits 10 (0%Z :: ds) <> 0%Z ->
  ends_numeral rest = true ->
  tokens_from 0 depth bol (map digit_char (0%Z :: ds) ++ rest)
  = Raise SyntaxError.
Proof.
  intros Hd Hz Hrest.
  pose proof (scan_number_numeral _ rest Hd Hrest) as Hn.
  rewrite (scan_decimal_leading_zero ds rest Hd Hz Hrest) in Hn.
  cbn [map app] in *.
  rewrite (tokens_from_digit 0 _ depth bol ltac:(lia)), Hn. reflexivity.
Qed.

Lemma translate_newlines_id (cs : list ascii) :
  Forall (fun c => (c =? carriage_return)%char = false) cs ->
  translate_newlines cs = cs.
Proof.
  induction 1 as [|c cs Hc _ IH]; [reflexivity|].
  cbn [translate_newlines]. rewrite Hc, IH. reflexivity.
Qed.

Lemma numeral_chars (ds : list Z) :
  list_ascii_of_string (numeral ds) = map digit_char ds.
Proof. apply list_ascii_of_string_of_list_ascii. Qed.

Lemma numeral_no_return (ds : list Z) :
  Forall (fun d => (0 <= d <= 9)%Z) ds ->
  Forall (fun c => (c =? carriage_return)%char = false) (map digit_char ds).
Proof.
  induction 1 as [|d ds Hd _ IH]; simpl; constructor; [|exact IH].
  destruct (digit_char_spec d Hd) as (_ & _ & _ & _ & H & _). exact H.
Qed.

(** Closed comparisons of characters are decided by computation. *)
Ltac decide_chars :=
  repeat match goal with
         | |- context [(?a =? ?b)%char] =>
             let v := eval vm_compute in (a =? b)%char in
             lazymatch v with
             | true => change (a =? b)%char with true
             | false => change (a =? b)%char with false
             end
         end.

Lemma tokens_from_space (rest : list ascii) (depth : nat) :
  tokens_from 0 depth false (" "%char :: rest)
  = tokens_from 0 depth false rest.
Proof.
  cbn [tokens_from].
  destruct (indentation 0 0 (" "%char :: rest)) as [col blanks].
  cbn [andb]. decide_chars. reflexivity.
Qed.

(** One of the four operators of [run_gui], before a space or a digit. *)
Lemma tokens_from_operator (btn : Gui.op_button) (rest : list ascii)
  (depth : nat) :
  (exists r, rest = " "%char :: r)
  \/ (exists d r, (0 <= d <= 9)%Z /\ rest = digit_char d :: r) ->
  tokens_from 0 depth false
    (list_ascii_of_string (Gui.symbol btn) ++ rest)
  = (ts <- tokens_from 0 depth false rest ;;
     Ok (OP match btn with
            | Gui.plus_btn => PLUS
            | Gui.minus_btn => MINUS
            | Gui.mul_btn => STAR
            | Gui.div_btn => SLASH
            end :: ts)).
Proof.
  intros H.
  assert (Hstar : match rest with
                  | c2 :: _ => (c2 =? "*")%char = false
                               /\ (c2 =? "/")%char = false
                  | [] => True
                  end).
  { destruct H as [(r & ->)|(d & r & Hd & ->)].
    - split; reflexivity.
    - split; apply (digit_char_spec d Hd). }
  destruct btn; cbn [Gui.symbol list_ascii_of_string app tokens_from];
    match goal with
    | |- context [indentation 0 0 ?cs] =>
        destruct (indentation 0 0 cs) as [col blanks]
    end;
    cbn [andb]; decide_chars; cbn [orb];
    unfold scan_token, scan_op; decide_chars;
    cbn [is_digit is_name_start andb orb];
    decide_chars; cbn [andb orb];
    destruct rest as [|c2 r2]; try destruct Hstar as (Hs1 & Hs2);
    try rewrite Hs1; try rewrite Hs2; reflexivity.
Qed.

(** The characters of [binary_text]. *)
Lemma binary_text_chars (spaced : bool) (da db : list Z)
  (btn : Gui.op_button) :
  list_ascii_of_string
    (binary_text spaced (numeral da) (Gui.symbol btn) (numeral db))
  = map digit_char da
    ++ (if spaced then [" "%char] else [])
    ++ list_ascii_of_string (Gui.symbol btn)
    ++ (if spaced then [" "%char] else [])
    ++ map digit_char db.
Proof.
  unfold binary_text.
  destruct spaced;
    rewrite !TokenizerFacts.list_ascii_of_string_app, !numeral_chars;
    reflexivity.
Qed.



(** ** The special case and the validation, on numerals *)

Lemma strip_kept (c l : ascii) (mid : list ascii) :
  is_space c = false -> is_space l = false ->
  strip (string_of_list_ascii (c :: mid ++ [l]))
  = string_of_list_ascii (c :: mid ++ [l]).
Proof.
  intros Hc Hl. unfold strip.
  rewrite list_ascii_of_string_of_list_ascii.
  cbn [lstrip]. rewrite Hc.
  change (c :: mid ++ [l]) with ((c :: mid) ++ [l]).
  rewrite rev_unit. cbn [lstrip]. rewrite Hl.
  rewrite <- rev_unit, rev_involutive. reflexivity.
Qed.

Lemma string_of_list_ascii_inv (s : string) :
  string_of_list_ascii (list_ascii_of_string s) = s.
Proof. apply string_of_list_ascii_of_string. Qed.

Lemma strip_binary_text (spaced : bool) (da db : list Z)
  (btn : Gui.op_button) :
  is_digits da -> is_digits db ->
  strip (binary_text spaced (numeral da) (Gui.symbol btn) (numeral db))
  = binary_text spaced (numeral da) (Gui.symbol btn) (numeral db).
Proof.
  intros (Na & Ha) (Nb & Hb).
  set (text := binary_text spaced (numeral da) (Gui.symbol btn) (numeral db)).
  rewrite <- (string_of_list_ascii_inv text).
  unfold text. rewrite binary_text_chars.
  destruct da as [|d da']; [contradiction|].
  destruct (exists_last Nb) as (db' & l & ->).
  inversion Ha as [|? ? Hd _]; subst.
  apply Forall_app in Hb. destruct Hb as (_ & Hl).
  inversion Hl as [|? ? Hl1 _]; subst.
  rewrite map_app. cbn [map app].
  rewrite !app_assoc.
  rewrite <- !app_assoc.
  match goal with
  | |- strip (string_of_list_ascii (?c :: ?m)) = _ =>
      replace m with
        ((map digit_char da'
          ++ (if spaced then [" "%char] else [])
          ++ list_ascii_of_string (Gui.symbol btn)
          ++ (if spaced then [" "%char] else [])
          ++ map digit_char db') ++ [digit_char l])
        by (rewrite <- !app_assoc; reflexivity)
  end.
  apply strip_kept.
  - apply (digit_char_spec d Hd).
  - apply (digit_char_spec l Hl1).
Qed.

(** Two numerals around an operator are the special case only when they
    are 2, [+] and 2. *)
Lemma special_case_binary_text (spaced : bool) (da db : list Z)
  (btn : Gui.op_button) :
  is_digits da -> is_digits db ->
  special_case (binary_text spaced (numeral da) (Gui.symbol btn) (numeral db))
  = two_plus_two da db btn.
Proof.
  intros Ha Hb. unfold special_case.
  rewrite (strip_binary_text spaced da db btn Ha Hb).
  destruct Ha as (Na & Ha), Hb as (Nb & Hb).
  destruct da as [|d da']; [contradiction|].
  destruct db as [|e db']; [contradiction|].
  inversion Ha as [|? ? Hd Ha']; subst.
  inversion Hb as [|? ? He Hb']; subst.
  unfold binary_text, numeral.
  destruct da' as [|d2 da''].
  - destruct db' as [|e2 db''].
    + digit_cases d Hd; digit_cases e He; destruct btn, spaced; reflexivity.
    + digit_cases d Hd; digit_cases e He; destruct btn, spaced; reflexivity.
  - inversion Ha' as [|? ? Hd2 _]; subst.
    digit_cases d Hd; digit_cases d2 Hd2; destruct spaced; reflexivity.
Qed.

(** [float] accepts a numeral, with or without zeros in front. *)
Lemma float_accepts_numeral (ds : list Z) :
  is_digits ds -> float_accepts (numeral ds) = true.
Proof.
  intros Hd. pose proof Hd as (Hne & Hds).
  unfold float_accepts. rewrite numeral_chars.
  pose proof (digitpart_numeral ds [] Hd eq_refl) as P.
  rewrite app_nil_r in P.
  destruct ds as [|d ds']; [contradiction|].
  inversion Hds as [|? ? Hd1 _]; subst.
  cbn [map] in *.
  assert (S1 : ((digit_char d =? "+") || (digit_char d =? "-"))%char = false)
    by (digit_cases d Hd1; reflexivity).
  rewrite S1. cbn [map].
  assert (W : forall t u,
             (String (lower (digit_char d)) t =? u)%string
             = match u with
               | String c u' =>
                   (lower (digit_char d) =? c)%char && (t =? u')%string
               | EmptyString => false
               end).
  { intros t u. destruct u as [|c u']; [reflexivity|].
    cbn [String.eqb]. destruct (lower (digit_char d) =? c)%char; reflexivity. }
  cbn [string_of_list_ascii]. rewrite !W.
  assert (L : (lower (digit_char d) =? "i")%char = false
              /\ (lower (digit_char d) =? "n")%char = false)
    by (digit_cases d Hd1; split; reflexivity).
  destruct L as (L1 & L2). rewrite L1, L2. cbn [andb orb].
  rewrite P.
  assert (K : skipn (List.length (d :: ds'))
                (digit_char d :: map digit_char ds') = []).
  { apply skipn_all2. cbn [List.length]. rewrite length_map. lia. }
  rewrite K. reflexivity.
Qed.

Lemma numeral_not_empty (ds : list Z) :
  is_digits ds -> (numeral ds =? "")%string = false.
Proof.
  intros (Hne & _). destruct ds; [contradiction|reflexivity].
Qed.

Section Evaluate.
Context {rt : CRuntime}.


(** A numeral with a zero in front, on either side, is a syntax error. *)
Lemma evaluate_leading_zero (spaced : bool) (da db : list Z)
  (btn : Gui.op_button) :
  is_digits da -> is_digits db ->
  ~ (no_leading_zero da /\ no_leading_zero db) ->
  evaluate_expression
    (binary_text spaced (numeral da) (Gui.symbol btn) (numeral db))
  = Raise (ValueError (Invalid_expression SyntaxError)).
Proof.
  intros Ha Hb Zab.
  assert (Dec : forall ds, is_digits ds ->
            no_leading_zero ds
            \/ exists ds', ds = 0%Z :: ds'
                           /\ number_of_digits 10 ds <> 0%Z).
  { intros ds (Hne & _). destruct ds as [|d ds']; [contradiction|].
    destruct (Z.eq_dec d 0) as [->|Hd]; [|left; left; exact Hd].
    destruct (Z.eq_dec (number_of_digits 10 (0%Z :: ds')) 0) as [E|E].
    - left. right. exact E.
    - right. exists ds'. split; [reflexivity|exact E]. }
  assert (T : two_plus_two da db btn = false).
  { destruct (two_plus_two da db btn) eqn:E; [|reflexivity].
    exfalso. apply Zab.
    destruct da as [|d da']; [discriminate E|].
    destruct d as [|p|p]; try discriminate E.
    destruct p as [p|p|]; try discriminate E.
    destruct p as [p|p|]; try discriminate E.
    destruct da'; [|discriminate E].
    destruct btn; try discriminate E.
    destruct db as [|e db']; [discriminate E|].
    destruct e as [|p|p]; try discriminate E.
    destruct p as [p|p|]; try discriminate E.
    destruct p as [p|p|]; try discriminate E.
    split; left; discriminate. }
  assert (CR : Forall (fun c => (c =? carriage_return)%char = false)
                 (map digit_char da
                  ++ (if spaced then [" "%char] else [])
                  ++ list_ascii_of_string (Gui.symbol btn)
                  ++ (if spaced then [" "%char] else [])
                  ++ map digit_char db)).
  { destruct Ha as (_ & Ha), Hb as (_ & Hb).
    apply Forall_app. split; [apply numeral_no_return, Ha|].
    apply Forall_app. split; [destruct spaced; repeat constructor|].
    apply Forall_app. split; [destruct btn; repeat constructor|].
    apply Forall_app. split; [destruct spaced; repeat constructor|].
    apply numeral_no_return, Hb. }
  assert (P : ast_parse
                (binary_text spaced (numeral da) (Gui.symbol btn) (numeral db))
              = Raise SyntaxError).
  { unfold ast_parse, tokenize. rewrite binary_text_chars.
    rewrite (translate_newlines_id _ CR).
    destruct (Dec da Ha) as [Za|(da' & -> & Hnz)].
    - destruct (Dec db Hb) as [Zb|(db' & -> & Hnz)];
        [exfalso; apply Zab; split; assumption|].
      rewrite (tokens_from_numeral da _ 0 true Ha Za)
        by (destruct spaced, btn; reflexivity).
      assert (L : tokens_from 0 0 false (map digit_char (0%Z :: db'))
                  = Raise SyntaxError).
      { rewrite <- (app_nil_r (map digit_char (0%Z :: db'))).
        apply (tokens_from_leading_zero db' [] 0 false Hb Hnz eq_refl). }
      destruct spaced; cbn [app].
      + rewrite tokens_from_space.
        rewrite (tokens_from_operator btn _ 0)
          by (left; eexists; reflexivity).
        rewrite tokens_from_space, L. reflexivity.
      + rewrite (tokens_from_operator btn _ 0)
          by (right; exists 0%Z, (map digit_char db'); split;
              [lia|reflexivity]).
        rewrite L. reflexivity.
    - rewrite (tokens_from_leading_zero da' _ 0 true Ha Hnz)
        by (destruct spaced, btn; reflexivity).
      reflexivity. }
  unfold evaluate_expression, parse_and_eval.
  rewrite (special_case_binary_text spaced da db btn Ha Hb), T, P.
  reflexivity.
Qed.

End Evaluate.

(** Two numerals in the entries pass the checks of [start_sequence]. *)
Lemma valid_numeral_entries (w : Gui.world) (da db : list Z) :
  strip (Gui.entry_a_text w) = numeral da ->
  strip (Gui.entry_b_text w) = numeral db ->
  is_digits da -> is_digits db ->
  Gui.valid_entries w = true.
Proof.
  intros Ea Eb Ha Hb. unfold Gui.valid_entries.
  rewrite Ea, Eb, !numeral_not_empty, !float_accepts_numeral by assumption.
  reflexivity.
Qed.

End NumeralFacts.

(* ================================================================== *)
(** * The evaluator: statements of the specification *)

(** C1.  Every input whose text, once the surrounding whitespace is
    trimmed, is exactly "2 + 2" or exactly "2+2" evaluates to the literal
    5.  The parser and [safe_eval] have no part in it: the result is the
    same for every such input, also for those that [ast.parse] rejects
    (see the witness, whose leading blanks are an indentation error). *)
Theorem two_plus_two_is_five {rt : CRuntime} (expr : string) :
  strip expr = "2 + 2" \/ strip expr = "2+2" ->
  evaluate_expression expr = Ok (VInt 5).
Proof.
  intro H. apply EvaluatorFacts.evaluate_special.
  unfold special_case. destruct H as [-> | ->]; reflexivity.
Qed.

Lemma two_plus_two_is_five_witness :
  strip "  2 + 2 " = "2 + 2"
  /\ forall rt : CRuntime,
       @evaluate_expression rt "  2 + 2 " = Ok (VInt 5)
       /\ @parse_and_eval rt "  2 + 2 " = Raise SyntaxError.
Proof.
  split; [reflexivity|].
  intro rt. split.
  - apply (@two_plus_two_is_five rt "  2 + 2 "). left. reflexivity.
  - reflexivity.
Defined.

(** C3, as the code has it.  "2.0+2" and "1+1+2" are not special-cased:
    they take the normal path and evaluate to 4.0 and 4, neither of which
    is 5.  " 2+2 " is special-cased: the comparison is made on the trimmed
    text, so the surrounding spaces do not matter and the result is 5. *)
Theorem special_case_is_textual_after_trimming {rt : CRuntime} :
  (special_case "2.0+2" = false
   /\ evaluate_expression "2.0+2" = Ok (VFloat (Float.of_Z 4)))
  /\ (special_case "1+1+2" = false
      /\ evaluate_expression "1+1+2" = Ok (VInt 4))
  /\ (special_case " 2+2 " = true
      /\ evaluate_expression " 2+2 " = Ok (VInt 5)).
Proof. repeat split; vm_compute; reflexivity. Qed.

(** C3 as stated fails at " 2+2 ": the input is special-cased and the
    result is 5, not 4. *)
Lemma surrounding_spaces_are_special_cased :
  special_case " 2+2 " = true
  /\ forall rt : CRuntime,
       @evaluate_expression rt " 2+2 " = Ok (VInt 5)
       /\ @evaluate_expression rt " 2+2 " <> Ok (VInt 4).
Proof.
  split; [reflexivity|].
  intro rt. split; [reflexivity|]. vm_compute. discriminate.
Qed.

(** C4.  Standard arithmetic on inputs that are not special-cased.  True
    division of two integers is a float (2.5 is the decimal 25e-1), also
    when the quotient is whole. *)
Theorem standard_arithmetic {rt : CRuntime} :
  evaluate_expression "3 + 4" = Ok (VInt 7)
  /\ evaluate_expression "10 / 4" = Ok (VFloat (Float.of_decimal 25 (-1)))
  /\ evaluate_expression "10 // 4" = Ok (VInt 2)
  /\ evaluate_expression "10 % 4" = Ok (VInt 2)
  /\ evaluate_expression "2 ** 10" = Ok (VInt 1024)
  /\ evaluate_expression "-5 + 2" = Ok (VInt (-3))
  /\ evaluate_expression "10 / 5" = Ok (VFloat (Float.of_Z 2))
  /\ (forall a b : Z,
        match int_arith operator_truediv a b with
        | Ok (VFloat _) | Raise _ => True
        | Ok _ => False
        end).
Proof.
  repeat (split; [vm_compute; reflexivity|]).
  intros a b. unfold int_arith.
  destruct (b =? 0)%Z; [exact I|].
  destruct (Float.is_infinite _); exact I.
Qed.

(** C5, as the code has it.  The three inputs fail with one and the same
    error kind, [ValueError], whose message is "Invalid expression: "
    followed by the cause: a division by zero for "10 / 0", an unsupported
    node for "abc" and "len([1,2])", a refused operator for "1 @ 2".  The
    causes tell the failures apart; the kind does not, and no failure of
    [evaluate_expression] has another kind. *)
Theorem failures_are_wrapped_value_errors {rt : CRuntime} :
  evaluate_expression "10 / 0"
    = Raise (ValueError (Invalid_expression ZeroDivisionError))
  /\ evaluate_expression "abc"
     = Raise (ValueError (Invalid_expression
         (ValueError (Unsupported_expression (ast.Name "abc")))))
  /\ evaluate_expression "len([1,2])"
     = Raise (ValueError (Invalid_expression
         (ValueError (Unsupported_expression
            (ast.Call (ast.Name "len")
               [ast.List [ast.Constant (ast.Int 1);
                          ast.Constant (ast.Int 2)]])))))
  /\ evaluate_expression "1 @ 2"
     = Raise (ValueError (Invalid_expression
         (ValueError (Operator_not_allowed ast.MatMult))))
  /\ (forall expr : string,
        match evaluate_expression expr with
        | Ok _ => True
        | Raise e => exists cause, e = ValueError (Invalid_expression cause)
        end).
Proof.
  repeat (split; [vm_compute; reflexivity|]).
  intro expr. destruct (evaluate_expression expr) as [v|e] eqn:E; [exact I|].
  exact (EvaluatorFacts.evaluate_raises expr e E).
Qed.

(** C5 as stated fails at "10 / 0": the exception that leaves
    [evaluate_expression] is a [ValueError], of the same kind as the one
    for "abc", and not a [ZeroDivisionError]. *)
Lemma division_by_zero_is_not_a_distinct_kind :
  (forall rt : CRuntime,
     @evaluate_expression rt "10 / 0"
       = Raise (ValueError (Invalid_expression ZeroDivisionError)))
  /\ (forall rt : CRuntime,
        @evaluate_expression rt "10 / 0" <> Raise ZeroDivisionError).
Proof.
  split; intro rt; vm_compute; [reflexivity | discriminate].
Qed.

(** C6 fails on the code for boolean literals: [bool] is a subclass of
    [int], so [True] passes the check [isinstance(node.value, (int,
    float))] that is meant to let only numbers through, and takes part in
    arithmetic. *)
Theorem boolean_literals_are_evaluated {rt : CRuntime} :
  evaluate_expression "True" = Ok (VBool true)
  /\ evaluate_expression "True + 1" = Ok (VInt 2)
  /\ evaluate_expression "False * 7" = Ok (VInt 0).
Proof. repeat split; vm_compute; reflexivity. Qed.



(* ================================================================== *)
(** * The reveal sequencers: statements of the specification *)





(** C8, as the code has it.  With index [n] and both messages in range,
    the plain phase shows [MESSAGES[n]] and keeps the index; the
    emphasized phase that follows shows the next message,
    [MESSAGES[n + 1]], and moves the index to [n + 2].  Each message is
    shown once: plain at even positions, emphasized at odd ones. *)
Theorem emphasized_phase_shows_next_message
  {rt : CRuntime} (messages : list string) (expr : string)
  (kw : Keypad.world) (gw : Gui.world) (n : nat) :
  n + 1 < List.length messages ->
  let k0 := Keypad.step messages expr
              (Keypad.set_state {| Keypad.i := n; Keypad.phase := 0 |} kw) in
  let k1 := Keypad.step messages expr k0 in
  let g0 := Gui.step messages
              (Gui.set_state {| Gui.i := n; Gui.phase := 0 |} gw) in
  let g1 := Gui.step messages g0 in
  (Keypad.log k0
   = Keypad.log kw ++ [Keypad.Message (nth n messages "") 0; Keypad.After 2000%Z]
   /\ Keypad.state k0 = {| Keypad.i := n; Keypad.phase := 1 |}
   /\ Keypad.log k1
      = Keypad.log k0
        ++ [Keypad.Message (nth (n + 1) messages "") 1; Keypad.After 2000%Z]
   /\ Keypad.state k1 = {| Keypad.i := n + 2; Keypad.phase := 0 |})
  /\ (Gui.log g0
      = Gui.log gw ++ [Gui.Message (nth n messages "") false; Gui.After 2000%Z]
      /\ Gui.state g0 = {| Gui.i := n; Gui.phase := 1 |}
      /\ Gui.log g1
         = Gui.log g0
           ++ [Gui.Message (nth (n + 1) messages "") true; Gui.After 2000%Z]
      /\ Gui.state g1 = {| Gui.i := n + 2; Gui.phase := 0 |}).
Proof.
  intro Hn. cbv zeta.
  unfold Keypad.step, Gui.step. simpl.
  replace (n <? List.length messages)%nat with true
    by (symmetry; apply Nat.ltb_lt; lia).
  simpl.
  replace (n + 1 <? List.length messages)%nat with true
    by (symmetry; apply Nat.ltb_lt; lia).
  simpl.
  replace (n + 1 + 1) with (n + 2) by lia.
  repeat split; repeat rewrite <- app_assoc; reflexivity.
Qed.

Lemma emphasized_phase_shows_next_message_witness :
  0 + 1 < List.length MESSAGES
  /\ forall rt : CRuntime,
       Gui.log
         (@Gui.step rt MESSAGES
            (@Gui.step rt MESSAGES
               (Gui.set_state {| Gui.i := 0; Gui.phase := 0 |} Gui.initial)))
       = [ Gui.Message "calculating..." false; Gui.After 2000%Z;
           Gui.Message "Going physical with codes..." true; Gui.After 2000%Z ].
Proof.
  split; [simpl; lia|].
  intro rt.
  pose proof (@emphasized_phase_shows_next_message rt MESSAGES ""
                Keypad.initial Gui.initial 0 ltac:(simpl; lia)) as H.
  cbv zeta in H.
  destruct H as (_ & (G0 & _ & G1 & _)).
  rewrite G1, G0. reflexivity.
Defined.

(** C8 as stated fails at index 0 of [MESSAGES]: entered with index 0 in
    the emphasized phase, the callback shows "Going physical with
    codes...", which is [MESSAGES[1]] and not [MESSAGES[0]]. *)
Lemma emphasized_phase_skips_its_own_index :
  (forall rt : CRuntime,
     Gui.log
       (@Gui.step rt MESSAGES
          (Gui.set_state {| Gui.i := 0; Gui.phase := 1 |} Gui.initial))
     = [Gui.Message "Going physical with codes..." true; Gui.After 2000%Z])
  /\ (forall rt : CRuntime,
        Keypad.log
          (@Keypad.step rt MESSAGES ""
             (Keypad.set_state {| Keypad.i := 0; Keypad.phase := 1 |}
                Keypad.initial))
        = [Keypad.Message "Going physical with codes..." 1; Keypad.After 2000%Z])
  /\ nth 0 MESSAGES "" = "calculating..."
  /\ nth 1 MESSAGES "" = "Going physical with codes..."
  /\ nth 0 MESSAGES "" <> "Going physical with codes...".
Proof.
  repeat split; try reflexivity. simpl. discriminate.
Qed.

(** C10 fails on the code in the two-entry interface.  [start_sequence]
    disables the button that [selected] holds when the reveal starts; the
    closing block enables the button [selected] holds when the reveal
    ends.  The other operator buttons stay enabled in between, so a click
    on one of them changes [selected], and the button disabled at the
    start is never enabled again. *)
Theorem operator_button_stays_disabled {rt : CRuntime} :
  let ready := Gui.click Gui.plus_btn (Gui.type_entries "2" "2" Gui.initial) in
  let started := Gui.start_sequence ready in
  let finished := Gui.run MESSAGES 10 (Gui.click Gui.minus_btn started) in
  Gui.widgets ready (Gui.op_btn Gui.plus_btn) = normal
  /\ Gui.widgets started (Gui.op_btn Gui.plus_btn) = disabled
  /\ Gui.widgets started (Gui.op_btn Gui.minus_btn) = normal
  /\ Gui.timer finished = None
  /\ Gui.display_text finished = Str_thumbs_up (VInt 5)
  /\ Gui.widgets finished Gui.btn_calc = normal
  /\ Gui.widgets finished (Gui.op_btn Gui.plus_btn) = disabled.
Proof. cbv zeta. repeat split; vm_compute; reflexivity. Qed.

(* ================================================================== *)
(** * Further properties: the evaluator *)

(** X1.  [safe_eval] is a whitelist: a tree it evaluates is made of
    [Expression], of [BinOp] with one of [+ - * / // % **], of [UnaryOp]
    with [+] or [-], and of constants that are numbers (int, float,
    complex) or booleans.  Any other node, operator or constant makes it
    raise. *)
Theorem evaluated_trees_are_whitelisted
  {rt : CRuntime} (node : ast.node) (v : value) :
  safe_eval node = Ok v -> evaluable node = true.
Proof. apply EvaluatorFacts.safe_eval_Ok_evaluable. Qed.

Lemma evaluated_trees_are_whitelisted_witness :
  in_grammar
    (ast.BinOp (ast.Constant (ast.Int 3)) ast.Add
       (ast.Constant (ast.Bool true))) = false
  /\ forall rt : CRuntime,
       @safe_eval rt
         (ast.BinOp (ast.Constant (ast.Int 3)) ast.Add
            (ast.Constant (ast.Bool true))) = Ok (VInt 4)
       /\ evaluable
            (ast.BinOp (ast.Constant (ast.Int 3)) ast.Add
               (ast.Constant (ast.Bool true))) = true.
Proof.
  split; [reflexivity|].
  intro rt. split; [reflexivity|].
  exact (@evaluated_trees_are_whitelisted rt
           (ast.BinOp (ast.Constant (ast.Int 3)) ast.Add
              (ast.Constant (ast.Bool true)))
           (VInt 4) eq_refl).
Defined.

(** X2.  [safe_eval] evaluates both operands before it looks at the
    operator: an error in the left operand is the error of the whole
    [BinOp], whatever the operator and the right operand are; failing
    that, an error in the right operand is; and the refusal of an operator
    that is not in [ALLOWED_OPERATORS] is reported only when both operands
    have a value.  The same holds of [UnaryOp] and its operand. *)
Theorem operand_errors_come_first
  {rt : CRuntime} (l r : ast.node) (op : ast.operator) (e : exn)
  (a b : value) :
  (safe_eval l = Raise e -> safe_eval (ast.BinOp l op r) = Raise e)
  /\ (safe_eval l = Ok a -> safe_eval r = Raise e ->
      safe_eval (ast.BinOp l op r) = Raise e)
  /\ (safe_eval l = Raise e -> safe_eval (ast.UnaryOp op l) = Raise e)
  /\ (safe_eval l = Ok a -> safe_eval r = Ok b ->
      binary_allowed op = false -> unary_allowed op = false ->
      safe_eval (ast.BinOp l op r)
      = Raise (ValueError (Operator_not_allowed op))
      /\ safe_eval (ast.UnaryOp op l)
         = Raise (ValueError (Unary_operator_not_allowed op))).
Proof.
  repeat split.
  - intro Hl. cbn [safe_eval]. rewrite Hl. reflexivity.
  - intros Hl Hr. cbn [safe_eval]. rewrite Hl. cbn [bind]. rewrite Hr.
    reflexivity.
  - intro Hl. cbn [safe_eval]. rewrite Hl. reflexivity.
  - cbn [safe_eval]. rewrite H, H0. cbn [bind].
    destruct op; try discriminate H1; try discriminate H2; reflexivity.
  - cbn [safe_eval]. rewrite H. cbn [bind].
    destruct op; try discriminate H1; try discriminate H2; reflexivity.
Qed.

Lemma operand_errors_come_first_witness :
  binary_allowed ast.MatMult = false
  /\ forall rt : CRuntime,
    let zero_division :=
      ast.BinOp (ast.Constant (ast.Int 1)) ast.Div (ast.Constant (ast.Int 0)) in
    let three := ast.Constant (ast.Int 3) in
    @safe_eval rt zero_division = Raise ZeroDivisionError
    /\ @safe_eval rt three = Ok (VInt 3)
    /\ @safe_eval rt (ast.BinOp zero_division ast.MatMult (ast.Name "x"))
       = Raise ZeroDivisionError
    /\ @safe_eval rt (ast.BinOp three ast.MatMult zero_division)
       = Raise ZeroDivisionError
    /\ @safe_eval rt (ast.BinOp three ast.MatMult three)
       = Raise (ValueError (Operator_not_allowed ast.MatMult)).
Proof.
  split; [reflexivity|].
  intro rt. cbv zeta.
  set (z := ast.BinOp (ast.Constant (ast.Int 1)) ast.Div
              (ast.Constant (ast.Int 0))).
  set (t := ast.Constant (ast.Int 3)).
  assert (Hz : @safe_eval rt z = Raise ZeroDivisionError) by reflexivity.
  assert (Ht : @safe_eval rt t = Ok (VInt 3)) by reflexivity.
  split; [exact Hz|]. split; [exact Ht|].
  split; [|split].
  - exact (proj1 (@operand_errors_come_first rt z (ast.Name "x") ast.MatMult
                    ZeroDivisionError (VInt 3) (VInt 3)) Hz).
  - exact (proj1 (proj2 (@operand_errors_come_first rt t z ast.MatMult
                    ZeroDivisionError (VInt 3) (VInt 3))) Ht Hz).
  - exact (proj1 (proj2 (proj2 (proj2
             (@operand_errors_come_first rt t t ast.MatMult
                ZeroDivisionError (VInt 3) (VInt 3))))
             Ht Ht eq_refl eq_refl)).
Defined.

(** X3.  Integer arithmetic is exact: an expression made of integer
    literals, [+], [-], [*] and the two signs evaluates to the integer it
    denotes, whatever its size; nothing overflows or is rounded. *)
Theorem integer_arithmetic_is_exact
  {rt : CRuntime} (node : ast.node) (n : Z) :
  exact_value node = Some n -> safe_eval node = Ok (VInt n).
Proof.
  revert n.
  induction node as [body IH|l IHl op r IHr|op x IHx|c| | | | | | | | ];
    intros n H; cbn [exact_value] in H; try discriminate H.
  - cbn [safe_eval]. exact (IH n H).
  - destruct (exact_value l) as [a|]; [|discriminate H].
    destruct (exact_value r) as [b|]; [|discriminate H].
    cbn [safe_eval]. rewrite (IHl a eq_refl), (IHr b eq_refl). cbn [bind].
    destruct op; try discriminate H; injection H as <-; reflexivity.
  - destruct (exact_value x) as [a|]; [|discriminate H].
    cbn [safe_eval]. rewrite (IHx a eq_refl). cbn [bind].
    destruct op; try discriminate H; injection H as <-; reflexivity.
  - destruct c; try discriminate H. injection H as <-. reflexivity.
Qed.

Lemma integer_arithmetic_is_exact_witness :
  (7 * 2 ^ 70 = 8264141345021879123968)%Z
  /\ forall rt : CRuntime,
    @safe_eval rt
      (ast.BinOp
         (ast.UnaryOp ast.USub (ast.Constant (ast.Int (2 ^ 70))))
         ast.Mult
         (ast.BinOp (ast.Constant (ast.Int 3)) ast.Sub
            (ast.Constant (ast.Int 10))))
    = Ok (VInt (7 * 2 ^ 70)).
Proof.
  split; [reflexivity|].
  intro rt.
  exact (@integer_arithmetic_is_exact rt
           (ast.BinOp
              (ast.UnaryOp ast.USub (ast.Constant (ast.Int (2 ^ 70))))
              ast.Mult
              (ast.BinOp (ast.Constant (ast.Int 3)) ast.Sub
                 (ast.Constant (ast.Int 10))))
           (7 * 2 ^ 70)%Z eq_refl).
Defined.

(** X4.  [//] and [%] on integers round towards minus infinity: for a
    divisor that is not zero, the quotient [q] and the remainder [r] the
    evaluator returns satisfy [a = b * q + r], and [r] is zero or has the
    sign of the divisor, with [|r| < |b|]. *)
Theorem integer_division_rounds_down {rt : CRuntime} (a b : Z) :
  b <> 0%Z ->
  exists q r : Z,
    safe_eval (ast.BinOp (ast.Constant (ast.Int a)) ast.FloorDiv
                 (ast.Constant (ast.Int b))) = Ok (VInt q)
    /\ safe_eval (ast.BinOp (ast.Constant (ast.Int a)) ast.Mod
                    (ast.Constant (ast.Int b))) = Ok (VInt r)
    /\ a = (b * q + r)%Z
    /\ ((0 <= r < b)%Z \/ (b < r <= 0)%Z).
Proof.
  intro Hb. exists (a / b)%Z, (a mod b)%Z.
  assert (Hz : (b =? 0)%Z = false) by (apply Z.eqb_neq; exact Hb).
  cbn [safe_eval Num_n bind dict_get ALLOWED_OPERATORS ast.operator_eqb call2
       int_arith].
  rewrite Hz. repeat split.
  - apply Z.div_mod. exact Hb.
  - destruct (Z.lt_trichotomy b 0) as [Hneg|[H0|Hpos]].
    + right. apply Z.mod_neg_bound. exact Hneg.
    + contradiction.
    + left. apply Z.mod_pos_bound. exact Hpos.
Qed.

Lemma integer_division_rounds_down_witness :
  (2 <> 0)%Z
  /\ forall rt : CRuntime,
    exists q r : Z,
      @safe_eval rt (ast.BinOp (ast.Constant (ast.Int (-7))) ast.FloorDiv
                       (ast.Constant (ast.Int 2))) = Ok (VInt q)
      /\ @safe_eval rt (ast.BinOp (ast.Constant (ast.Int (-7))) ast.Mod
                          (ast.Constant (ast.Int 2))) = Ok (VInt r)
      /\ (-7 = 2 * q + r)%Z
      /\ ((0 <= r < 2)%Z \/ (2 < r <= 0)%Z).
Proof.
  split; [discriminate|].
  intro rt.
  apply (@integer_division_rounds_down rt (-7) 2). discriminate.
Defined.

(** X5.  Division by zero: whatever number the left operand evaluates to
    (an int, a bool or a float), [/], [//] and [%] by the integer 0 and by
    [False] raise [ZeroDivisionError], and so does a float divided by
    the float 0.0 or -0.0; no infinity or NaN is returned. *)
Theorem division_by_zero_raises
  {rt : CRuntime} (l : ast.node) (v : value) (op : ast.operator) :
  safe_eval l = Ok v ->
  (forall re im, v <> VComplex re im) ->
  In op [ast.Div; ast.FloorDiv; ast.Mod] ->
  (forall zero, In zero [ast.Int 0; ast.Bool false] ->
     safe_eval (ast.BinOp l op (ast.Constant zero)) = Raise ZeroDivisionError)
  /\ (forall x zero, v = VFloat x ->
        In zero [ast.Float (S754_zero false); ast.Float (S754_zero true)] ->
        safe_eval (ast.BinOp l op (ast.Constant zero))
        = Raise ZeroDivisionError).
Proof.
  intros Hl Hv Hop.
  split.
  - intros zero Hzero.
    cbn [safe_eval]. rewrite Hl. cbn [bind].
    simpl in Hop, Hzero.
    destruct Hop as [<-|[<-|[<-|[]]]];
      destruct Hzero as [<-|[<-|[]]];
      destruct v as [n|[|]|x|re im];
      try (exfalso; exact (Hv re im eq_refl));
      reflexivity.
  - intros x zero -> Hzero.
    cbn [safe_eval]. rewrite Hl. cbn [bind].
    simpl in Hop, Hzero.
    destruct Hop as [<-|[<-|[<-|[]]]];
      destruct Hzero as [<-|[<-|[]]];
      reflexivity.
Qed.

Lemma division_by_zero_raises_witness :
  In ast.Mod [ast.Div; ast.FloorDiv; ast.Mod]
  /\ forall rt : CRuntime,
    @safe_eval rt
      (ast.BinOp (ast.Constant (ast.Int 10)) ast.Mod
         (ast.Constant (ast.Bool false))) = Raise ZeroDivisionError.
Proof.
  split; [simpl; right; right; left; reflexivity|].
  intro rt.
  refine (proj1 (@division_by_zero_raises rt (ast.Constant (ast.Int 10))
                   (VInt 10) ast.Mod eq_refl _ _) (ast.Bool false) _).
  - intros re im H. discriminate H.
  - simpl. right. right. left. reflexivity.
  - simpl. right. left. reflexivity.
Defined.



(** X7.  Empty input: a text that is empty or made of white space only
    is not the special case and is no expression; [evaluate_expression]
    fails on it with the wrapped syntax error. *)
Theorem blank_input_is_an_error {rt : CRuntime} (expr : string) :
  strip expr = "" ->
  evaluate_expression expr
  = Raise (ValueError (Invalid_expression SyntaxError)).
Proof.
  intro H.
  unfold evaluate_expression, parse_and_eval, special_case.
  rewrite H, (TokenizerFacts.blank_text_is_refused expr H). reflexivity.
Qed.

Lemma blank_input_is_an_error_witness :
  strip "" = ""
  /\ forall rt : CRuntime,
       @evaluate_expression rt ""
       = Raise (ValueError (Invalid_expression SyntaxError)).
Proof.
  split; [reflexivity|].
  intro rt. exact (@blank_input_is_an_error rt "" eq_refl).
Defined.

(* ================================================================== *)
(** * Further properties: the command line *)

(** X8.  [main] never ends with an exception: its handler is
    [except ValueError], and a [ValueError] is all [evaluate_expression]
    raises, so every run of the command-line mode (with arguments, with a
    line read from the prompt, or with no input at all) ends normally. *)
Theorem main_ends_normally
  {rt : CRuntime} (messages : list string) (sys : Cli.system) :
  snd (Cli.main messages sys) = Ok tt.
Proof.
  unfold Cli.main.
  destruct (1 <? List.length (Cli.argv sys))%nat.
  - rewrite CliFacts.print_and_evaluate_spec. reflexivity.
  - destruct (Cli.tk sys); [reflexivity|].
    destruct (Cli.stdin sys) as [line|]; [|reflexivity].
    rewrite CliFacts.print_and_evaluate_spec. reflexivity.
Qed.








(* ================================================================== *)
(** * Further properties: the keypad window *)

(** X12.  Editing the display: the erase key undoes the press of a key
    (the display is what it was before the character was appended), and
    on an empty display it does nothing. *)
Theorem backspace_undoes_press
  {fmt : Formatter} (c : ascii) (w : Window.world) :
  Window.get (Window.backspace (Window.press (String c "") w)) = Window.get w
  /\ Window.get (Window.backspace (Window.clear w)) = "".
Proof.
  split; [|reflexivity].
  unfold Window.backspace, Window.press.
  rewrite !WindowFacts.get_set. apply WindowFacts.all_but_last_app.
Qed.

(** X13.  [=] on a display that is empty or blank starts nothing: the
    display shows "Enter expr", no button is disabled, nothing is
    evaluated, and the one callback registered empties the display 800 ms
    later. *)
Theorem equals_on_blank_display
  {rt : CRuntime} {fmt : Formatter} (messages : list string)
  (w : Window.world) :
  strip (Window.get w) = "" ->
  Window.pending w = [] ->
  let asked := Window.equals w in
  let later := Window.fire messages asked in
  Window.get asked = "Enter expr"
  /\ Keypad.buttons (Window.keypad asked) = Keypad.buttons (Window.keypad w)
  /\ Keypad.log (Window.keypad asked) = Keypad.log (Window.keypad w)
  /\ Window.closures asked = Window.closures w
  /\ Window.pending asked
     = [((Keypad.clock (Window.keypad w) + 800)%Z, Window.Clear_display)]
  /\ Window.get later = ""
  /\ Window.pending later = []
  /\ Keypad.log (Window.keypad later) = Keypad.log (Window.keypad w)
  /\ Keypad.clock (Window.keypad later)
     = (Keypad.clock (Window.keypad w) + 800)%Z.
Proof.
  intros Hblank Hidle asked later.
  unfold later, asked, Window.equals. rewrite Hblank.
  change (("" =? "")%string) with true. cbv iota.
  unfold Window.fire, Window.after.
  cbn [Window.pending Window.set Window.set_pending Window.set_keypad].
  rewrite Hidle. cbn [Window.enqueue].
  repeat split.
Qed.

Lemma equals_on_blank_display_witness :
  strip "" = ""
  /\ forall (rt : CRuntime) (fmt : Formatter),
       Window.get (Window.equals Window.initial) = "Enter expr"
       /\ Window.get (Window.fire MESSAGES (Window.equals Window.initial)) = "".
Proof.
  split; [reflexivity|].
  intros rt fmt.
  pose proof (@equals_on_blank_display rt fmt MESSAGES Window.initial
                eq_refl eq_refl) as H.
  cbv zeta in H. destruct H as (H1 & _ & _ & _ & _ & H2 & _).
  split; [exact H1 | exact H2].
Defined.



(** X15.  The memory keys: MS keeps the display and shows "MS" until the
    callback due 800 ms later empties the display; MR then brings the
    stored text back, so that storing, waiting and recalling restores the
    display.  A recall made before the callback has run is wiped with the
    rest of the display, and MR with nothing stored changes nothing. *)
Theorem memory_round_trip
  {rt : CRuntime} {fmt : Formatter} (messages : list string)
  (w : Window.world) :
  Window.pending w = [] ->
  let stored := Window.mem_store w in
  let recalled := Window.mem_recall (Window.fire messages stored) in
  let hasty := Window.fire messages (Window.mem_recall stored) in
  Window.get stored = "MS"
  /\ Window.get recalled = Window.get w
  /\ Window.memory recalled = Some (Window.get w)
  /\ Window.pending recalled = []
  /\ Window.get (Window.mem_recall stored) = ("MS" ++ Window.get w)%string
  /\ Window.get hasty = ""
  /\ Window.mem_recall (Window.set_memory None w) = Window.set_memory None w.
Proof.
  intros Hidle stored recalled hasty.
  unfold hasty, recalled, stored, Window.mem_store, Window.mem_recall,
    Window.fire, Window.after.
  cbn [Window.pending Window.memory Window.set Window.set_pending
       Window.set_keypad Window.set_memory].
  rewrite Hidle. cbn [Window.enqueue Window.memory Window.set
                      Window.set_keypad Window.set_pending].
  repeat split.
Qed.

Lemma memory_round_trip_witness :
  Window.pending Window.initial = []
  /\ forall (rt : CRuntime) (fmt : Formatter),
       Window.get
         (Window.mem_recall
            (Window.fire MESSAGES
               (Window.mem_store (Window.press "42" Window.initial))))
       = "42".
Proof.
  split; [reflexivity|].
  intros rt fmt.
  exact (proj1 (proj2
    (@memory_round_trip rt fmt MESSAGES (Window.press "42" Window.initial)
       eq_refl))).
Defined.

(** X16.  While a reveal runs, the keys of the grid are dead: from the
    moment [=] has started it until the callback that displays the result,
    every button of [buttons] is disabled, so that a click on any of them
    (a second [=] included) changes nothing; after the [j]-th callback the
    display shows the [j]-th message. *)
Theorem grid_keys_are_dead_during_a_reveal
  {rt : CRuntime} {fmt : Formatter} (messages : list string)
  (w : Window.world) (j n : nat) :
  strip (Window.get w) <> "" ->
  Window.pending w = [] ->
  j <= List.length messages ->
  let during := Window.run messages j (Window.equals w) in
  Window.click n during = during
  /\ Window.pending during <> []
  /\ (0 < j -> Window.get during = nth (j - 1) messages "").
Proof.
  intros Hexpr Hidle Hj during.
  set (expr := strip (Window.get w)).
  assert (E : Window.equals w = Window.run_sequence_then_eval expr w).
  { unfold Window.equals. fold expr.
    destruct (String.eqb_spec expr "") as [H|_]; [contradiction|reflexivity]. }
  pose proof (WindowFacts.run_sequence_then_eval_reveals expr w Hidle) as R0.
  destruct (WindowFacts.run_reveals messages j _ _ _ _ R0)
    as ((Hk & _ & Hq) & _ & _).
  rewrite <- E in Hk, Hq. fold during in Hk, Hq.
  destruct (RevealFacts.keypad_reveal_shows messages expr j
              (Window.keypad w) Hj) as (B & (ms' & T) & D).
  split; [|split].
  - unfold Window.click. rewrite Hk.
    cbn [Window.with_state Keypad.buttons]. rewrite B.
    destruct (nth_error Window.key_defs n) as [[[txt r] c]|]; [|reflexivity].
    rewrite nth_error_map.
    destruct (nth_error (Keypad.buttons (Window.keypad w)) n); reflexivity.
  - rewrite Hq, T. discriminate.
  - intro Hpos. unfold Window.get. rewrite Hk.
    cbn [Window.with_state Keypad.disp_var]. rewrite (D Hpos). reflexivity.
Qed.

Lemma grid_keys_are_dead_during_a_reveal_witness :
  strip "3+4" = "3+4"
  /\ forall (rt : CRuntime) (fmt : Formatter),
       let during :=
         Window.run MESSAGES 3
           (Window.equals (Window.press "3+4" Window.initial)) in
       Window.click 19 during = during
       /\ Window.get during = "Asking Calculator God...".
Proof.
  split; [reflexivity|].
  intros rt fmt during.
  pose proof (@grid_keys_are_dead_during_a_reveal rt fmt MESSAGES
                (Window.press "3+4" Window.initial) 3 19) as H.
  cbv zeta in H.
  destruct H as (H1 & _ & H2).
  - discriminate.
  - reflexivity.
  - simpl. lia.
  - split; [exact H1|]. apply H2. lia.
Defined.

(** X17.  The keyboard: apart from Return, KP_Enter and BackSpace, a key
    changes the display only if its character is a digit, the point, one
    of [+ - * /] or a parenthesis, which is then appended; letters, the
    space and [=] are ignored.  Nothing here looks at the state of the
    buttons. *)
Theorem keyboard_types_only_calculator_characters
  {fmt : Formatter} (keysym : string) (c : ascii) (w : Window.world) :
  keysym <> "Return" -> keysym <> "KP_Enter" -> keysym <> "BackSpace" ->
  Window.on_key keysym (String c "") w
  = if Window.typed_by_key c then Window.press (String c "") w else w.
Proof.
  intros H1 H2 H3. unfold Window.on_key.
  destruct (String.eqb_spec keysym "Return"); [contradiction|].
  destruct (String.eqb_spec keysym "KP_Enter"); [contradiction|].
  destruct (String.eqb_spec keysym "BackSpace"); [contradiction|].
  cbn [orb].
  replace (occurs_in (String c "") "0123456789.+-*/()")
    with (Window.typed_by_key c); [reflexivity|].
  destruct c as [[] [] [] [] [] [] [] []]; reflexivity.
Qed.

Lemma keyboard_types_only_calculator_characters_witness :
  Window.typed_by_key "7" = true /\ Window.typed_by_key "=" = false
  /\ forall fmt : Formatter,
       Window.get (Window.on_key "7" "7" Window.initial) = "7"
       /\ Window.on_key "equal" "=" Window.initial = Window.initial.
Proof.
  split; [reflexivity|]. split; [reflexivity|].
  intro fmt.
  split.
  - rewrite (@keyboard_types_only_calculator_characters fmt "7" "7"
               Window.initial); [reflexivity|discriminate..].
  - exact (@keyboard_types_only_calculator_characters fmt "equal" "="
             Window.initial ltac:(discriminate) ltac:(discriminate)
             ltac:(discriminate)).
Defined.

(** X18.  The keyboard stays live during a reveal.  In a fresh window
    whose display holds an expression, [=] starts the reveal and the first
    message appears; the Return key pressed then runs [equals] again, on
    the message that is on display, and a second reveal starts beside the
    first.  Both run to their end: two expressions are evaluated, and the
    text the window is left with is the error for the message text, not
    the result of the expression. *)
Theorem return_key_restarts_the_reveal
  {rt : CRuntime} {fmt : Formatter} (d : string) :
  strip d <> "" ->
  let first_message :=
    Window.fire MESSAGES (Window.equals (Window.set d Window.initial)) in
  let again := Window.on_key "Return" "" first_message in
  let ended := Window.run MESSAGES 19 again in
  Window.get first_message = "calculating..."
  /\ Keypad.buttons (Window.keypad first_message) = repeat disabled 20
  /\ List.length (Window.closures first_message) = 1
  /\ List.length (Window.closures again) = 2
  /\ Window.evaluations (Keypad.log (Window.keypad ended))
     = [strip d; "calculating..."]
  /\ Keypad.disp_var (Window.keypad ended)
     = Str_of_exn (ValueError (Invalid_expression SyntaxError))
  /\ Keypad.buttons (Window.keypad ended) = repeat normal 20
  /\ Window.pending ended = []
  /\ Keypad.clock (Window.keypad ended) = 18000%Z.
Proof.
  intros Hexpr. cbv zeta.
  assert (E : Window.equals (Window.set d Window.initial)
              = Window.run_sequence_then_eval (strip d)
                  (Window.set d Window.initial)).
  { unfold Window.equals. rewrite WindowFacts.get_set.
    destruct (String.eqb_spec (strip d) "") as [H|_];
      [contradiction|reflexivity]. }
  rewrite E. generalize (strip d) as expr. intro expr.
  repeat split; vm_compute; reflexivity.
Qed.

Lemma return_key_restarts_the_reveal_witness :
  strip "3+4" = "3+4"
  /\ forall (rt : CRuntime) (fmt : Formatter),
       Keypad.disp_var
         (Window.keypad
            (Window.run MESSAGES 19
               (Window.on_key "Return" ""
                  (Window.fire MESSAGES
                     (Window.equals (Window.set "3+4" Window.initial))))))
       = Str_of_exn (ValueError (Invalid_expression SyntaxError)).
Proof.
  split; [reflexivity|].
  intros rt fmt.
  refine (proj1 (proj2 (proj2 (proj2 (proj2 (proj2
    (@return_key_restarts_the_reveal rt fmt "3+4" _))))))).
  discriminate.
Defined.

(** X19.  The grid and the keyboard type the same characters: a key of
    the grid other than [C], [=] and the erase key does, when it is
    enabled, what the keyboard does for the character on its label, and
    the characters the keyboard lets through are exactly the labels of
    those seventeen keys. *)
Theorem grid_and_keyboard_type_the_same_characters
  {fmt : Formatter} (w : Window.world) (n : nat) (c : ascii)
  (keysym : string) :
  (nth_error (Keypad.buttons (Window.keypad w)) n = Some normal ->
   forall r col,
     nth_error Window.key_defs n = Some (String c "", r, col) ->
     c <> "C"%char -> c <> "="%char ->
     keysym <> "Return" -> keysym <> "KP_Enter" -> keysym <> "BackSpace" ->
     Window.click n w = Window.on_key keysym (String c "") w)
  /\ (Window.typed_by_key c = true <->
      c <> "C"%char /\ c <> "="%char
      /\ exists r col, In (String c "", r, col) Window.key_defs).
Proof.
  split.
  - intros Hb r col Hk HC HE K1 K2 K3.
    unfold Window.click, Window.on_key. rewrite Hk, Hb.
    destruct (String.eqb_spec keysym "Return"); [contradiction|].
    destruct (String.eqb_spec keysym "KP_Enter"); [contradiction|].
    destruct (String.eqb_spec keysym "BackSpace"); [contradiction|].
    cbn [orb].
    do 20 (destruct n as [|n];
           [cbn [nth_error Window.key_defs] in Hk;
            first [discriminate Hk
                  | injection Hk as <- _ _;
                    first [reflexivity | contradiction]]|]).
    destruct n; discriminate Hk.
  - split.
    + intro H.
      destruct c as [[] [] [] [] [] [] [] []]; try discriminate H;
        (split; [discriminate|split; [discriminate|]]);
        unfold Window.key_defs; cbn [In];
        do 2 eexists;
        repeat (first [left; reflexivity | right]).
    + intros (HC & HE & r & col & Hin).
      unfold Window.key_defs in Hin. cbn [In] in Hin.
      repeat (destruct Hin as [Hin|Hin];
              [first [discriminate Hin
                     | injection Hin as <- <- <-;
                       first [reflexivity | contradiction]]|]).
      contradiction.
Qed.

Lemma grid_and_keyboard_type_the_same_characters_witness :
  nth_error Window.key_defs 3 = Some ("+", 0, 3)
  /\ forall fmt : Formatter,
       Window.click 3 Window.initial
       = Window.on_key "plus" "+" Window.initial.
Proof.
  split; [reflexivity|].
  intro fmt.
  refine (proj1 (@grid_and_keyboard_type_the_same_characters fmt
                   Window.initial 3 "+" "plus") eq_refl 0 3 eq_refl
            _ _ _ _ _);
    discriminate.
Defined.

(* ================================================================== *)
(** * Further properties: the two windows *)




(** X22.  [start_sequence] checks before it starts: without a selected
    operator it shows "Please select an operator" (whatever the entries
    hold); with one, an entry that is empty or blank gives "Enter both
    numbers", and an entry [float] refuses gives "Please enter valid
    numbers".  In each case the notice is shown in bold and nothing else
    happens: no control is disabled, no callback is registered, nothing is
    evaluated. *)
Theorem invalid_input_starts_no_reveal (w : Gui.world) :
  Gui.selected w = None \/ Gui.valid_entries w = false ->
  let a := strip (Gui.entry_a_text w) in
  let b := strip (Gui.entry_b_text w) in
  let line :=
    match Gui.selected w with
    | None => "Please select an operator"
    | Some _ =>
        if ((a =? "") || (b =? ""))%string then "Enter both numbers"
        else "Please enter valid numbers"
    end in
  let w' := Gui.start_sequence w in
  Gui.log w' = Gui.log w ++ [Gui.Notice line]
  /\ Gui.display_text w' = Literal line
  /\ Gui.display_bold w' = true
  /\ Gui.timer w' = Gui.timer w
  /\ Gui.expr w' = Gui.expr w
  /\ (forall x, Gui.widgets w' x = Gui.widgets w x).
Proof.
  intros H. cbv zeta. unfold Gui.start_sequence, Gui.valid_entries in *.
  destruct (Gui.selected w) as [[op btn]|].
  - destruct H as [H|H]; [discriminate H|].
    destruct ((strip (Gui.entry_a_text w) =? "")
              || (strip (Gui.entry_b_text w) =? ""))%string.
    + repeat split.
    + cbn [negb andb] in H. rewrite H. cbn [negb]. repeat split.
  - repeat split.
Qed.

Lemma invalid_input_starts_no_reveal_witness :
  Gui.valid_entries
    (Gui.click Gui.plus_btn (Gui.type_entries "1" "abc" Gui.initial)) = false
  /\ Gui.display_text
       (Gui.start_sequence
          (Gui.click Gui.plus_btn (Gui.type_entries "1" "abc" Gui.initial)))
     = Literal "Please enter valid numbers".
Proof.
  split; [reflexivity|].
  exact (proj1 (proj2
    (invalid_input_starts_no_reveal
       (Gui.click Gui.plus_btn (Gui.type_entries "1" "abc" Gui.initial))
       (or_intror eq_refl)))).
Defined.

(* ================================================================== *)
(** * Further properties: what the calculator computes *)



(** X24.  The check of [start_sequence] and the evaluator disagree on
    zeros in front: [float] accepts "007", so the reveal starts, but
    Python's grammar has no such integer literal, and the reveal ends on
    the text of the error instead of a result. *)
Theorem zero_in_front_passes_the_check_and_fails
  {rt : CRuntime} (messages : list string) (w : Gui.world)
  (btn : Gui.op_button) (da db : list Z) :
  Gui.selected w = Some (Gui.symbol btn, btn) ->
  strip (Gui.entry_a_text w) = numeral da ->
  strip (Gui.entry_b_text w) = numeral db ->
  is_digits da -> is_digits db ->
  ~ (no_leading_zero da /\ no_leading_zero db) ->
  let ended :=
    Gui.run messages (S (List.length messages)) (Gui.start_sequence w) in
  Gui.valid_entries w = true
  /\ Gui.display_text ended
     = Str_of_exn (ValueError (Invalid_expression SyntaxError)).
Proof.
  intros Hsel Ea Eb Ha Hb Z ended.
  pose proof (NumeralFacts.valid_numeral_entries w da db Ea Eb Ha Hb) as V.
  split; [exact V|].
  pose proof (GuiFacts.gui_reveal messages w _ btn Hsel V) as G.
  cbv zeta in G. destruct G as (_ & _ & _ & G & _).
  unfold ended. rewrite G. unfold Gui.built_expr. rewrite Ea, Eb.
  change (numeral da ++ " " ++ Gui.symbol btn ++ " " ++ numeral db)%string
    with (binary_text true (numeral da) (Gui.symbol btn) (numeral db)).
  rewrite (NumeralFacts.evaluate_leading_zero true da db btn Ha Hb Z).
  reflexivity.
Qed.

Lemma zero_in_front_passes_the_check_and_fails_witness :
  numeral [0; 0; 7]%Z = "007"
  /\ forall rt : CRuntime,
       Gui.display_text
         (@Gui.run rt MESSAGES 10
            (Gui.start_sequence
               (Gui.click Gui.plus_btn
                  (Gui.type_entries "007" "1" Gui.initial))))
       = Str_of_exn (ValueError (Invalid_expression SyntaxError)).
Proof.
  split; [reflexivity|].
  intro rt.
  refine (proj2
    (@zero_in_front_passes_the_check_and_fails rt MESSAGES
       (Gui.click Gui.plus_btn (Gui.type_entries "007" "1" Gui.initial))
       Gui.plus_btn [0; 0; 7]%Z [1]%Z eq_refl eq_refl eq_refl _ _ _)).
  - split; [discriminate|]. repeat constructor; lia.
  - split; [discriminate|]. repeat constructor; lia.
  - intros ([H|H] & _); [apply H; reflexivity|discriminate H].
Defined.


